(** * FuzzyBBoxSmoother: a shallow embedding of [src/fuzzy_bbox_smoother.py]

    The smoother keeps the previous smoothed centre and size of a bounding
    box, asks a fuzzy controller for a blend factor [alpha] and blends the new
    detection into the stored one.

    The Python code is duck-typed over numbers.  The embedding keeps that: the
    code is written once over a class [Number] of Python numbers and is
    instantiated twice,
    - at the rationals [Q] (exact arithmetic, the setting of the universally
      quantified theorems), and
    - at IEEE binary64 (Rocq's primitive floats, the [float] of CPython), used
      to run the code on inputs where overflow and NaN matter.

    Around the smoother, the development also embeds its callers and
    neighbours: the detector of [src/hand_detector.py], the frame loop, the
    keyboard handling and the frame-rate meter of
    [src/live_hand_detection.py], and the capture loop of
    [Scripts/Camera_Calibration.py].  What OpenCV, the network and the clock
    deliver is an argument of each function. *)

From Stdlib Require Import ZArith QArith Qround Qminmax Lqa Lia List Bool.
From Stdlib Require Import Uint63 PrimFloat SpecFloat FloatOps.
From Stdlib Require Import Qpower.
From Stdlib Require String Ascii.
Import ListNotations.

Set Implicit Arguments.

(** ** Python numbers and exceptions *)

(** The exceptions the smoother can meet. *)
Inductive exn : Type :=
  | ValueError      (* int(nan) *)
  | OverflowError   (* int(inf) *)
  | TypeError.      (* arithmetic on None *)

(** What the code needs from a number: literals, the four operations,
    [np.sqrt] and comparisons. *)
Class Number (T : Type) : Type := {
  lit : Q -> T;
  add : T -> T -> T;
  sub : T -> T -> T;
  mul : T -> T -> T;
  div : T -> T -> T;
  np_sqrt : T -> T;
  ltb : T -> T -> bool;
  eqb : T -> T -> bool
}.

(** [int(x)]: the conversion of a number to a Python int, which can raise. *)
Class Trunc (T : Type) : Type := {
  py_int : T -> exn + Z
}.

Declare Scope num_scope.
Delimit Scope num_scope with num.
Infix "+" := add : num_scope.
Infix "-" := sub : num_scope.
Infix "*" := mul : num_scope.
Infix "/" := div : num_scope.
Infix "<?" := ltb : num_scope.
Infix "=?" := eqb : num_scope.

Section Numbers.
Context {T : Type} `{Number T}.
Local Open Scope num_scope.

(** [np.fmax], [np.fmin] on two scalars; a NaN first operand is kept. *)
Definition fmax (x y : T) : T := if x <? y then y else x.
Definition fmin (x y : T) : T := if y <? x then y else x.

(** [np.clip(x, lo, hi)] is [minimum(maximum(x, lo), hi)]. *)
Definition np_clip (x lo hi : T) : T := fmin (fmax x lo) hi.

(** [sum] of a list, from [0]. *)
Definition total (l : list T) : T := fold_left add l (lit 0).
End Numbers.

(** ** Exact arithmetic: the rationals *)

(** [int(x)] truncates toward zero. *)
Definition Qtrunc (q : Q) : Z := Z.quot (Qnum q) (Zpos (Qden q)).

(** A square root on [Q]: exact on squares of rationals, otherwise rounded
    down to a multiple of [2^-52 / Qden q]. *)
Definition Qsqrt (q : Q) : Q :=
  Qred (Z.sqrt (Qnum q * Zpos (Qden q) * 4 ^ 52) # (Qden q * 2 ^ 52)).

Definition Qltb (x y : Q) : bool := negb (Qle_bool y x).

(** The instance is parametric in the square root: no theorem below depends
    on which one is used. *)
Definition QNumber (sqrt : Q -> Q) : Number Q := {|
  lit := fun q => q;
  add := Qplus;
  sub := Qminus;
  mul := Qmult;
  div := Qdiv;
  np_sqrt := sqrt;
  ltb := Qltb;
  eqb := Qeq_bool
|}.

#[export] Instance QTrunc : Trunc Q := {|
  py_int := fun q => inr (Qtrunc q)
|}.

(** ** IEEE binary64: the floats of CPython and numpy *)

Definition float_of_Z (z : Z) : float :=
  if (z <? 0)%Z then PrimFloat.opp (PrimFloat.of_uint63 (Uint63.of_Z (- z)))
  else PrimFloat.of_uint63 (Uint63.of_Z z).

(** A decimal literal is the double nearest to it: one correctly rounded
    division of two small integers. *)
Definition float_lit (q : Q) : float :=
  PrimFloat.div (float_of_Z (Qnum q)) (float_of_Z (Zpos (Qden q))).

(** [int(x)] on a float: [ValueError] on NaN, [OverflowError] on an infinity,
    truncation toward zero otherwise. *)
Definition float_int (x : float) : exn + Z :=
  match Prim2SF x with
  | S754_nan => inl ValueError
  | S754_infinity _ => inl OverflowError
  | S754_zero _ => inr 0%Z
  | S754_finite s m e =>
      let v := match e with
               | Z.neg k => Z.shiftr (Zpos m) (Zpos k)
               | _ => Z.shiftl (Zpos m) e
               end in
      inr (if s then (- v)%Z else v)
  end.

#[export] Instance FloatNumber : Number float := {|
  lit := float_lit;
  add := PrimFloat.add;
  sub := PrimFloat.sub;
  mul := PrimFloat.mul;
  div := PrimFloat.div;
  np_sqrt := PrimFloat.sqrt;
  ltb := PrimFloat.ltb;
  eqb := PrimFloat.eqb
|}.

#[export] Instance FloatTrunc : Trunc float := {|
  py_int := float_int
|}.

(** ** The fuzzy controller *)

(** Membership functions, as [fuzz.trapmf] and [fuzz.trimf] build them. *)
Inductive MembershipFunction (T : Type) : Type :=
  | Trapezoid (a b c d : T)
  | Triangle (a b c : T).

Inductive motion_term : Type := motion_small | motion_medium | motion_large.
Inductive confidence_term : Type :=
  confidence_low | confidence_medium | confidence_high.
Inductive alpha_term : Type :=
  | alpha_very_small | alpha_small | alpha_medium | alpha_large
  | alpha_very_large.

Definition alpha_term_eqb (s t : alpha_term) : bool :=
  match s, t with
  | alpha_very_small, alpha_very_small
  | alpha_small, alpha_small
  | alpha_medium, alpha_medium
  | alpha_large, alpha_large
  | alpha_very_large, alpha_very_large => true
  | _, _ => false
  end.

Definition alpha_terms : list alpha_term :=
  [alpha_very_small; alpha_small; alpha_medium; alpha_large; alpha_very_large].

(** [ctrl.Rule(self.motion[m] & self.confidence[c], self.alpha[a])]. *)
Record Rule : Type := mkRule {
  rule_motion : motion_term;
  rule_confidence : confidence_term;
  rule_alpha : alpha_term
}.

(** The nine rules of [__init__], in the order of the source. *)
Definition rules : list Rule := [
  mkRule motion_small confidence_high alpha_very_small;
  mkRule motion_small confidence_medium alpha_small;
  mkRule motion_small confidence_low alpha_small;
  mkRule motion_medium confidence_high alpha_medium;
  mkRule motion_medium confidence_medium alpha_small;
  mkRule motion_medium confidence_low alpha_very_small;
  mkRule motion_large confidence_high alpha_very_large;
  mkRule motion_large confidence_medium alpha_large;
  mkRule motion_large confidence_low alpha_medium
].

Section Controller.
Context {T : Type} `{Number T}.
Local Open Scope num_scope.

(** The membership functions of [__init__]. *)
Definition motion (t : motion_term) : MembershipFunction T :=
  match t with
  | motion_small => Trapezoid (lit 0) (lit 0) (lit 3) (lit 8)
  | motion_medium => Trapezoid (lit 5) (lit 12) (lit 18) (lit 25)
  | motion_large => Trapezoid (lit 20) (lit 40) (lit 100) (lit 100)
  end.

Definition confidence (t : confidence_term) : MembershipFunction T :=
  match t with
  | confidence_low => Trapezoid (lit 0) (lit 0) (lit 0.3) (lit 0.5)
  | confidence_medium => Trapezoid (lit 0.4) (lit 0.5) (lit 0.6) (lit 0.7)
  | confidence_high => Trapezoid (lit 0.6) (lit 0.75) (lit 1.0) (lit 1.0)
  end.

Definition alpha (t : alpha_term) : MembershipFunction T :=
  match t with
  | alpha_very_small => Triangle (lit 0) (lit 0.05) (lit 0.15)
  | alpha_small => Triangle (lit 0.1) (lit 0.2) (lit 0.3)
  | alpha_medium => Triangle (lit 0.25) (lit 0.4) (lit 0.55)
  | alpha_large => Triangle (lit 0.5) (lit 0.7) (lit 0.85)
  | alpha_very_large => Triangle (lit 0.8) (lit 0.95) (lit 1.0)
  end.

(** [self.alpha.universe = np.arange(0, 1.01, 0.01)]: 101 sample points. *)
Definition alpha_universe : list T :=
  map (fun i => lit (Z.of_nat i # 100)) (seq 0 101).

(** Modelled from the spec: the triangle of skfuzzy's [trimf], whose code is
    not part of the repository (section 4.1: 0 at [x <= a] or [x >= c], a
    linear ramp up to 1 at [x = b], a linear ramp down to [x = c]). *)
Definition trimf (x a b c : T) : T :=
  if x =? b then lit 1
  else if (a <? x) && (x <? b) then (x - a) / (b - a)
  else if (b <? x) && (x <? c) then (c - x) / (c - b)
  else lit 0.

(** Modelled from the spec: the trapezoid of skfuzzy's [trapmf], whose code
    is not part of the repository (section 4.1: 0 outside [a, d], a ramp from
    [a] to [b], 1 on [b, c], a ramp from [c] to [d]; where [a = b] or [c = d]
    the ramp is a step and the edge itself has degree 1). *)
Definition trapmf (x a b c d : T) : T :=
  if x <? a then lit 0
  else if d <? x then lit 0
  else if negb (x <? c) then trimf x c c d
  else if negb (b <? x) then trimf x a b b
  else lit 1.

(** Modelled from the spec: [evaluate(function, x)] of section 4.1. *)
Definition evaluate (f : MembershipFunction T) (x : T) : T :=
  match f with
  | Trapezoid a b c d => trapmf x a b c d
  | Triangle a b c => trimf x a b c
  end.

(** Modelled from the spec: rule firing of section 4.2, step 2 (the engine,
    skfuzzy's [ControlSystemSimulation.compute], is not part of the
    repository): the strength of a rule is the min of its two degrees. *)
Definition firing_strength (r : Rule) (m c : T) : T :=
  fmin (evaluate (motion (rule_motion r)) m)
       (evaluate (confidence (rule_confidence r)) c).

(** Modelled from the spec: aggregation of section 4.2, step 3: per alpha
    term, the max over the rules that conclude it, 0 when there is none. *)
Definition aggregated_strength (t : alpha_term) (m c : T) : T :=
  fold_left fmax
    (map (fun r => firing_strength r m c)
         (filter (fun r => alpha_term_eqb (rule_alpha r) t) rules))
    (lit 0).

(** Modelled from the spec: the aggregate output set of section 4.2, step 4:
    the pointwise max, over the terms, of the term's membership function
    clipped at its aggregated strength. *)
Definition aggregate (m c x : T) : T :=
  fold_left fmax
    (map (fun t => fmin (aggregated_strength t m c) (evaluate (alpha t) x))
         alpha_terms)
    (lit 0).

(** Modelled from the spec: centroid defuzzification of section 4.2, steps 4
    and 5, over the sample points.  [None] stands for the exception the
    engine raises when the total membership is zero. *)
Definition compute (m c : T) : option T :=
  let ys := map (aggregate m c) alpha_universe in
  let area := total ys in
  if area =? lit 0 then None
  else Some (total (map (fun x => x * aggregate m c x) alpha_universe) / area).

(** Lines 112-119 of [smooth]: the [try] block around the engine, with the
    fallback [alpha = 0.3] of the bare [except]. *)
Definition infer (motion_magnitude conf : T) : T :=
  match compute motion_magnitude conf with
  | Some a => a
  | None => lit 0.3
  end.

End Controller.

(** ** The smoother *)

(** The state variables of [__init__]: each is [None] or a number. *)
Record FuzzyBBoxSmoother (T : Type) : Type := mkSmoother {
  prev_cx : option T;
  prev_cy : option T;
  prev_w : option T;
  prev_h : option T
}.

(** [bbox]: the tuple [(x1, y1, x2, y2)]. *)
Definition BBox (T : Type) : Type := (T * T * T * T)%type.

(** What [smooth] returns: the tuple it was given (line 100), or a tuple of
    four Python ints (line 141). *)
Inductive Returned (T : Type) : Type :=
  | Same (bbox : BBox T)
  | Pixels (box : BBox Z).

(** A method body: it reads and writes [self] and returns or raises. *)
Definition Method (T A : Type) : Type :=
  FuzzyBBoxSmoother T -> FuzzyBBoxSmoother T * (exn + A).

Definition ret {T A : Type} (a : A) : Method T A := fun self => (self, inr a).

Definition raise {T A : Type} (e : exn) : Method T A :=
  fun self => (self, inl e).

Definition bind {T A B : Type} (m : Method T A) (k : A -> Method T B)
  : Method T B :=
  fun self =>
    match m self with
    | (self', inr a) => k a self'
    | (self', inl e) => (self', inl e)
    end.

Definition get_self {T : Type} : Method T (FuzzyBBoxSmoother T) :=
  fun self => (self, inr self).

Definition set_self {T : Type} (s : FuzzyBBoxSmoother T) : Method T unit :=
  fun _ => (s, inr tt).

(** An attribute used as an operand: arithmetic on [None] raises. *)
Definition operand {T : Type} (v : option T) : Method T T :=
  match v with
  | Some x => ret x
  | None => raise TypeError
  end.

(** [int(x)]. *)
Definition int {T : Type} `{Trunc T} (x : T) : Method T Z :=
  match py_int x with
  | inr z => ret z
  | inl e => raise e
  end.

Declare Scope method_scope.
Delimit Scope method_scope with method.
Notation "x <- m ;; k" := (bind m (fun x => k))
  (at level 61, m at next level, right associativity) : method_scope.
Notation "m ;; k" := (bind m (fun _ => k))
  (at level 61, right associativity) : method_scope.

Section Smoother.
Context {T : Type} `{Number T} `{Trunc T}.
Local Open Scope num_scope.
Local Open Scope method_scope.

(** The state after [__init__] (lines 62-66). *)
Definition init : FuzzyBBoxSmoother T := mkSmoother None None None None.

(** [reset] (lines 68-73). *)
Definition reset : Method T unit :=
  self <- get_self ;;
  set_self (mkSmoother None (prev_cy self) (prev_w self) (prev_h self)) ;;
  self <- get_self ;;
  set_self (mkSmoother (prev_cx self) None (prev_w self) (prev_h self)) ;;
  self <- get_self ;;
  set_self (mkSmoother (prev_cx self) (prev_cy self) None (prev_h self)) ;;
  self <- get_self ;;
  set_self (mkSmoother (prev_cx self) (prev_cy self) (prev_w self) None).

(** [smooth] (lines 75-141).  [dx**2] is [dx * dx]. *)
Definition smooth (bbox : BBox T) (conf : T) : Method T (Returned T) :=
  let '(x1, y1, x2, y2) := bbox in
  let cx := (x1 + x2) / lit 2 in
  let cy := (y1 + y2) / lit 2 in
  let w := x2 - x1 in
  let h := y2 - y1 in
  self <- get_self ;;
  match prev_cx self with
  | None =>
      set_self (mkSmoother (Some cx) (Some cy) (Some w) (Some h)) ;;
      ret (Same bbox)
  | Some self_prev_cx =>
      let dx := cx - self_prev_cx in
      self_prev_cy <- operand (prev_cy self) ;;
      let dy := cy - self_prev_cy in
      let motion_magnitude := np_sqrt (dx * dx + dy * dy) in
      let motion_magnitude := np_clip motion_magnitude (lit 0) (lit 100) in
      let conf := np_clip conf (lit 0) (lit 1) in
      let alpha := infer motion_magnitude conf in
      let cx_smooth := self_prev_cx + alpha * (cx - self_prev_cx) in
      let cy_smooth := self_prev_cy + alpha * (cy - self_prev_cy) in
      self_prev_w <- operand (prev_w self) ;;
      let w_smooth := self_prev_w + lit 0.5 * (w - self_prev_w) in
      self_prev_h <- operand (prev_h self) ;;
      let h_smooth := self_prev_h + lit 0.5 * (h - self_prev_h) in
      set_self (mkSmoother (Some cx_smooth) (Some cy_smooth)
                           (Some w_smooth) (Some h_smooth)) ;;
      x1_smooth <- int (cx_smooth - w_smooth / lit 2) ;;
      y1_smooth <- int (cy_smooth - h_smooth / lit 2) ;;
      x2_smooth <- int (cx_smooth + w_smooth / lit 2) ;;
      y2_smooth <- int (cy_smooth + h_smooth / lit 2) ;;
      ret (Pixels T (x1_smooth, y1_smooth, x2_smooth, y2_smooth))
  end.

(** [get_debug_info] (lines 143-150): the four state variables. *)
Definition get_debug_info
  : Method T (option T * option T * option T * option T) :=
  self <- get_self ;;
  ret (prev_cx self, prev_cy self, prev_w self, prev_h self).

End Smoother.

(** ** Call sequences *)

(** A caller's use of one smoother: [smooth] and [reset] calls in any order
    ([live_hand_detection.py], [comparison_demo.py]). *)
Inductive Call (T : Type) : Type :=
  | CallSmooth (bbox : BBox T) (conf : T)
  | CallReset.

Arguments CallReset {T}.

Section Calls.
Context {T : Type} `{Number T} `{Trunc T}.
Local Open Scope method_scope.

Definition perform (c : Call T) : Method T (option (Returned T)) :=
  match c with
  | CallSmooth bbox conf => r <- smooth bbox conf ;; ret (Some r)
  | CallReset => reset ;; ret None
  end.

(** The state after each call of a sequence, with what the call returned or
    raised. *)
Fixpoint trace (calls : list (Call T)) (self : FuzzyBBoxSmoother T)
  : list (FuzzyBBoxSmoother T * (exn + option (Returned T))) :=
  match calls with
  | [] => []
  | c :: rest =>
      let step := perform c self in
      step :: trace rest (fst step)
  end.

(** The state after a whole sequence. *)
Definition state_after (calls : list (Call T)) (self : FuzzyBBoxSmoother T)
  : FuzzyBBoxSmoother T :=
  fold_left (fun s c => fst (perform c s)) calls self.

End Calls.

(** ** Notions used by the statements *)

(** Uninitialized: the four state variables are all [None]; Tracking: they
    are all numbers. *)
Definition uninitialized {T : Type} (self : FuzzyBBoxSmoother T) : Prop :=
  self = mkSmoother None None None None.

Definition tracking {T : Type} (self : FuzzyBBoxSmoother T) : Prop :=
  exists cx cy w h, self = mkSmoother (Some cx) (Some cy) (Some w) (Some h).

Section Blend.
Context {T : Type} {N : Number T}.
Local Open Scope num_scope.

(** The [alpha] of lines 102-119, as a function of the stored centre. *)
Definition blend_factor (pcx pcy : T) (bbox : BBox T) (conf : T) : T :=
  let '(x1, y1, x2, y2) := bbox in
  let cx := (x1 + x2) / lit 2 in
  let cy := (y1 + y2) / lit 2 in
  let dx := cx - pcx in
  let dy := cy - pcy in
  infer (np_clip (np_sqrt (dx * dx + dy * dy)) (lit 0) (lit 100))
        (np_clip conf (lit 0) (lit 1)).

(** The blend of lines 102-133, as a function of the stored values. *)
Definition blend (pcx pcy pw ph : T) (bbox : BBox T) (conf : T)
  : FuzzyBBoxSmoother T :=
  let '(x1, y1, x2, y2) := bbox in
  let cx := (x1 + x2) / lit 2 in
  let cy := (y1 + y2) / lit 2 in
  let a := blend_factor pcx pcy bbox conf in
  mkSmoother (Some (pcx + a * (cx - pcx)))
             (Some (pcy + a * (cy - pcy)))
             (Some (pw + lit 0.5 * ((x2 - x1) - pw)))
             (Some (ph + lit 0.5 * ((y2 - y1) - ph))).

End Blend.

Local Open Scope Q_scope.

(** The rationals with the square root [Qsqrt]. *)
Definition Q53 : Number Q := QNumber Qsqrt.

(** [int(...)] applied to the four corners of a centre and a size (lines
    136-139), for a conversion [conv] of a rational to an integer. *)
Definition corners (conv : Q -> Z) (cx cy w h : Q) : BBox Z :=
  (conv (cx - w / 2), conv (cy - h / 2), conv (cx + w / 2), conv (cy + h / 2)).

(** Python's [round]: to the nearest integer, a tie to the even one.  This is
    the rounding the specification names, not the conversion of the code. *)
Definition py_round (q : Q) : Z :=
  let f := Qfloor q in
  match (q - inject_Z f ?= 1 # 2)%Q with
  | Lt => f
  | Gt => (f + 1)%Z
  | Eq => if Z.even f then f else (f + 1)%Z
  end.

(** A Tracking-state call to [smooth], with [conv] as the conversion of the
    corners: the new centre moves by [a] toward the raw one, the new size is
    the mean of the stored and the raw one, the corners are converted. *)
Definition tracking_step (N : Number Q) (conv : Q -> Z)
  (pcx pcy pw ph : Q) (bbox : BBox Q) (conf : Q) : Prop :=
  let '(x1, y1, x2, y2) := bbox in
  let cx := (x1 + x2) / 2 in
  let cy := (y1 + y2) / 2 in
  let dx := cx - pcx in
  let dy := cy - pcy in
  let motion_magnitude := np_clip (np_sqrt (dx * dx + dy * dy)) 0 100 in
  let a := infer motion_magnitude (np_clip conf 0 1) in
  let ncx := pcx + a * (cx - pcx) in
  let ncy := pcy + a * (cy - pcy) in
  let nw := pw + 0.5 * ((x2 - x1) - pw) in
  let nh := ph + 0.5 * ((y2 - y1) - ph) in
  smooth bbox conf (mkSmoother (Some pcx) (Some pcy) (Some pw) (Some ph))
  = (mkSmoother (Some ncx) (Some ncy) (Some nw) (Some nh),
     inr (Pixels Q (corners conv ncx ncy nw nh))).

(** A bbox with [x1 <= x2] and [y1 <= y2]. *)
Definition well_formed (bbox : BBox Q) : Prop :=
  let '(x1, y1, x2, y2) := bbox in x1 <= x2 /\ y1 <= y2.

Definition well_formed_call (c : Call Q) : Prop :=
  match c with
  | CallSmooth bbox _ => well_formed bbox
  | CallReset => True
  end.

(** The stored width and height, when present, are not negative. *)
Definition size_nonneg (self : FuzzyBBoxSmoother Q) : Prop :=
  (forall w, prev_w self = Some w -> 0 <= w)
  /\ (forall h, prev_h self = Some h -> 0 <= h).

(** The call returned, and what it returned is a well-formed bbox ([reset]
    returns none). *)
Definition returned_well_formed (o : exn + option (Returned Q)) : Prop :=
  match o with
  | inl _ => False
  | inr None => True
  | inr (Some (Same bbox)) => well_formed bbox
  | inr (Some (Pixels _ (x1, y1, x2, y2))) => (x1 <= x2)%Z /\ (y1 <= y2)%Z
  end.

(** The call returned: it raised nothing. *)
Definition returns {A : Type} (o : exn + A) : Prop :=
  match o with
  | inl _ => False
  | inr _ => True
  end.

(** The centre and the size of a tuple of pixels, computed as lines 89-92
    compute them. *)
Definition center_size (box : BBox Z) : Q * Q * Q * Q :=
  let '(x1, y1, x2, y2) := box in
  ((inject_Z x1 + inject_Z x2) / 2, (inject_Z y1 + inject_Z y2) / 2,
   inject_Z x2 - inject_Z x1, inject_Z y2 - inject_Z y1).

(** The calls of the end-to-end scenarios of the specification, followed by
    a reset and a new cold start. *)
Definition scenario : list (Call Q) :=
  [CallSmooth (100, 100, 200, 200) 0.9; CallSmooth (110, 100, 210, 200) 0.9;
   CallReset; CallSmooth (0, 0, 10, 10) 0.5].

(** ** Notions used by the further properties *)

(** [x] lies between [a] and [b], whichever of the two is the larger. *)
Definition between (a b x : Q) : Prop := a <= x <= b \/ b <= x <= a.

(** The bbox with the integer corners [x1, y1, x2, y2], as the detector
    hands it over ([box.astype(int)]). *)
Definition pixel_bbox (box : BBox Z) : BBox Q :=
  let '(x1, y1, x2, y2) := box in
  (inject_Z x1, inject_Z y1, inject_Z x2, inject_Z y2).

(** The stored centre and size are those of [bbox]. *)
Definition settled_on (bbox : BBox Q) (self : FuzzyBBoxSmoother Q) : Prop :=
  let '(x1, y1, x2, y2) := bbox in
  exists cx cy w h,
    self = mkSmoother (Some cx) (Some cy) (Some w) (Some h)
    /\ cx == (x1 + x2) / 2 /\ cy == (y1 + y2) / 2
    /\ w == x2 - x1 /\ h == y2 - y1.

(** ** The frame-rate meter of [LiveHandDetection] *)

(** [self.prev_time], [self.fps_buffer] and [self.fps] (lines 52-56 of
    [live_hand_detection.py]); times are the values of [time.time()]. *)
Record FpsMeter : Type := mkFpsMeter {
  prev_time : Q;
  fps_buffer : list Q;
  fps : Q
}.

(** The exception of a float division. *)
Inductive arith_exn : Type := ZeroDivisionError.

(** [x / y] on Python floats: it raises when [y] is zero. *)
Definition py_div (x y : Q) : arith_exn + Q :=
  if Qeq_bool y 0 then inl ZeroDivisionError else inr (x / y).

(** [_calculate_fps] (lines 94-105), with the clock reading [current_time]
    as an argument; [pop(0)] is [tl]. *)
Definition _calculate_fps (current_time : Q) (self : FpsMeter)
  : FpsMeter * (arith_exn + unit) :=
  match py_div 1 (current_time - prev_time self) with
  | inl e => (self, inl e)
  | inr fps_now =>
      let self := mkFpsMeter current_time (fps_buffer self) (fps self) in
      let self := mkFpsMeter (prev_time self) (fps_buffer self ++ [fps_now])
                             (fps self) in
      let self :=
        if (30 <? length (fps_buffer self))%nat
        then mkFpsMeter (prev_time self) (tl (fps_buffer self)) (fps self)
        else self in
      match py_div (fold_left Qplus (fps_buffer self) 0)
                   (inject_Z (Z.of_nat (length (fps_buffer self)))) with
      | inl e => (self, inl e)
      | inr mean => (mkFpsMeter (prev_time self) (fps_buffer self) mean, inr tt)
      end
  end.

(** The meter after [__init__] at clock reading [t0] (lines 52-56). *)
Definition fresh_meter (t0 : Q) : FpsMeter := mkFpsMeter t0 [] 0.

(** The meter after a sequence of clock readings. *)
Definition meter_after (times : list Q) (self : FpsMeter) : FpsMeter :=
  fold_left (fun s t => fst (_calculate_fps t s)) times self.

(** The clock advances (or at least changes) at every reading. *)
Fixpoint clock_moves (prev : Q) (times : list Q) : Prop :=
  match times with
  | [] => True
  | t :: rest => ~ t == prev /\ clock_moves t rest
  end.

(** The instantaneous frame rates of a sequence of clock readings. *)
Fixpoint frame_rates (prev : Q) (times : list Q) : list Q :=
  match times with
  | [] => []
  | t :: rest => 1 / (t - prev) :: frame_rates t rest
  end.

(** The last [n] elements of a list (all of it when it is shorter). *)
Definition lastn {A : Type} (n : nat) (l : list A) : list A :=
  skipn (length l - n) l.

(** The mean of a list, as line 105 computes it. *)
Definition mean (l : list Q) : Q :=
  fold_left Qplus l 0 / inject_Z (Z.of_nat (length l)).

(** ** The detector of [hand_detector.py] *)

(** One row of [result.boxes]: the corners [xyxy], the confidence and the
    class, all floats of the network. *)
Record BoxRow : Type := mkBoxRow {
  xyxy : BBox Q;
  row_conf : Q;
  row_cls : Q
}.

(** [results[i]]: its [boxes] are [None] or the rows. *)
Record Result : Type := mkResult {
  boxes : option (list BoxRow)
}.

(** What the call [self.model(frame, ...)] does: it raises or it returns the
    list [results]. *)
Inductive Inference : Type :=
  | InferenceRaised
  | InferenceResults (results : list Result).

(** The loaded model, as far as the detector reads it: the dict [names]. *)
Record YOLO : Type := mkYOLO {
  names : list (Z * String.string)
}.

Record HandDetector : Type := mkHandDetector {
  model_path : String.string;
  conf_threshold : Q;
  model : option YOLO
}.

(** A detection: the dict with the keys ['bbox'], ['conf'], ['cls'] and
    ['label']. *)
Record Detection : Type := mkDetection {
  det_bbox : BBox Z;
  det_conf : Q;
  det_cls : Z;
  det_label : String.string
}.

(** [d[k]] on a dict: the value, or [None] for a [KeyError]. *)
Fixpoint dict_get (d : list (Z * String.string)) (k : Z)
  : option String.string :=
  match d with
  | [] => None
  | (k', v) :: rest => if (k' =? k)%Z then Some v else dict_get rest k
  end.

(** The range of numpy's [int] (int64). *)
Definition int64_min : Z := (- 2 ^ 63)%Z.
Definition int64_max : Z := (2 ^ 63 - 1)%Z.

(** One element of [astype(int)]: the cast of a float to int64 truncates
    toward zero, and a value whose truncation is outside the int64 range
    comes out as the smallest int64. *)
Definition cast_int64 (q : Q) : Z :=
  let z := Qtrunc q in
  if (int64_min <=? z)%Z && (z <=? int64_max)%Z then z else int64_min.

(** [tuple(box.astype(int))]. *)
Definition astype_int (box : BBox Q) : BBox Z :=
  let '(x1, y1, x2, y2) := box in
  (cast_int64 x1, cast_int64 y1, cast_int64 x2, cast_int64 y2).

(** [zip(boxes, confs, classes)]. *)
Fixpoint zip3 {A B C : Type} (la : list A) (lb : list B) (lc : list C)
  : list (A * B * C) :=
  match la, lb, lc with
  | a :: la', b :: lb', c :: lc' => (a, b, c) :: zip3 la' lb' lc'
  | _, _, _ => []
  end.

(** The loop of lines 67-74 (and 107-114): [None] when a lookup in [names]
    raises. *)
Fixpoint extract (m : YOLO) (rows : list (BBox Q * Q * Q))
  (detections : list Detection) : option (list Detection) :=
  match rows with
  | [] => Some detections
  | (box, conf, cls) :: rest =>
      match dict_get (names m) (Qtrunc cls) with
      | None => None
      | Some label =>
          let detection :=
            mkDetection (astype_int box) conf (Qtrunc cls) label in
          extract m rest (detections ++ [detection])
      end
  end.

(** Lines 56-76 (and 98-114): the detections of [results], [None] when
    something raises. *)
Definition detections_of (m : YOLO) (results : list Result)
  : option (list Detection) :=
  let detections := [] in
  match results with
  | [] => Some detections
  | result :: _ =>
      match boxes result with
      | None => Some detections
      | Some rows =>
          if (0 <? length rows)%nat
          then extract m (zip3 (map xyxy rows) (map row_conf rows)
                               (map row_cls rows)) detections
          else Some detections
      end
  end.

(** [detect] (lines 35-80), with the outcome of the network as an
    argument. *)
Definition detect (self : HandDetector) (outcome : Inference)
  : list Detection :=
  match model self with
  | None => []
  | Some m =>
      match outcome with
      | InferenceRaised => []
      | InferenceResults results =>
          match detections_of m results with
          | Some detections => detections
          | None => []
          end
      end
  end.

(** [detect_and_annotate] (lines 82-120) over frames of any type: [frame] is
    the input frame, [plotted] what [results[0].plot()] gives ([None] when it
    raises).  Calling the model [None] raises, and so does [results[0]] on an
    empty list; every exception ends in [(frame, [])]. *)
Definition detect_and_annotate {Frame : Type} (self : HandDetector)
  (frame : Frame) (outcome : Inference) (plotted : option Frame)
  : Frame * list Detection :=
  match model self with
  | None => (frame, [])
  | Some m =>
      match outcome with
      | InferenceRaised => (frame, [])
      | InferenceResults results =>
          match results with
          | [] => (frame, [])
          | _ :: _ =>
              match plotted with
              | None => (frame, [])
              | Some annotated_frame =>
                  match detections_of m results with
                  | Some detections => (annotated_frame, detections)
                  | None => (frame, [])
                  end
              end
          end
      end
  end.

(** ** The frame loop of [live_hand_detection.py] *)

(** The keys of [CONTROLS] ([config.py], lines 66-72). *)
Module CONTROLS.
Import Ascii.
Definition quit : ascii := "q"%char.
Definition toggle_smoothing : ascii := "s"%char.
Definition reset_smoothing : ascii := "r"%char.
Definition toggle_raw_boxes : ascii := "t"%char.
Definition help : ascii := "h"%char.
End CONTROLS.

Definition ord (c : Ascii.ascii) : Z := Z.of_nat (Ascii.nat_of_ascii c).

(** What the frame loop keeps between frames: the smoother, the two flags of
    [__init__] (lines 49-50) and the local [show_help] of [run]. *)
Record LiveHandDetection : Type := mkLive {
  smoother : FuzzyBBoxSmoother Q;
  smoothing_enabled : bool;
  show_raw_boxes : bool;
  show_help : bool
}.

(** A box handed to [_draw_bbox]: a raw one or a smoothed one. *)
Inductive Drawn : Type :=
  | DrawRaw (bbox : BBox Z)
  | DrawSmooth (bbox : Returned Q).

Section Frames.
Context {N : Number Q}.
Local Open Scope method_scope.

(** The loop of [process_frame] (lines 216-245), given the detections: the
    state is the smoother, the result the boxes drawn, in order. *)
Fixpoint process_detections (enabled show_raw : bool)
  (detections : list Detection) : Method Q (list Drawn) :=
  match detections with
  | [] => ret []
  | detection :: rest =>
      let bbox := det_bbox detection in
      let conf := det_conf detection in
      let raw := if show_raw then [DrawRaw bbox] else [] in
      if enabled then
        smooth_bbox <- smooth (pixel_bbox bbox) conf ;;
        drawn <- process_detections enabled show_raw rest ;;
        ret (raw ++ DrawSmooth smooth_bbox :: drawn)
      else
        reset ;;
        drawn <- process_detections enabled show_raw rest ;;
        ret (raw ++ drawn)
  end.

(** [process_frame] (lines 210-250), given what [self.detector.detect]
    returned. *)
Definition process_frame (detections : list Detection)
  (self : LiveHandDetection) : LiveHandDetection * (exn + list Drawn) :=
  let step := process_detections (smoothing_enabled self)
                (show_raw_boxes self) detections (smoother self) in
  (mkLive (fst step) (smoothing_enabled self) (show_raw_boxes self)
          (show_help self),
   snd step).

End Frames.

(** Whether the loop of [run] goes on or leaves by [break]. *)
Inductive LoopAction : Type := Continue | Break.

(** The keyboard handling of [run] (lines 283-306); [waited] is what
    [cv2.waitKey(1)] returned. *)
Definition handle_keyboard_input (waited : Z) (self : LiveHandDetection)
  : LiveHandDetection * LoopAction :=
  let key := Z.land waited 255 in
  if (key =? ord CONTROLS.quit)%Z then (self, Break)
  else if (key =? ord CONTROLS.toggle_smoothing)%Z then
    (mkLive (smoother self) (negb (smoothing_enabled self))
            (show_raw_boxes self) (show_help self), Continue)
  else if (key =? ord CONTROLS.reset_smoothing)%Z then
    (mkLive (fst (@reset Q (smoother self))) (smoothing_enabled self)
            (show_raw_boxes self) (show_help self), Continue)
  else if (key =? ord CONTROLS.toggle_raw_boxes)%Z then
    (mkLive (smoother self) (smoothing_enabled self)
            (negb (show_raw_boxes self)) (show_help self), Continue)
  else if (key =? ord CONTROLS.help)%Z then
    (mkLive (smoother self) (smoothing_enabled self) (show_raw_boxes self)
            (negb (show_help self)), Continue)
  else if show_help self && negb (key =? 255)%Z then
    (mkLive (smoother self) (smoothing_enabled self) (show_raw_boxes self)
            false, Continue)
  else (self, Continue).

(** The detection [d] is what lines 68-73 build from the row [r]. *)
Definition built_from (m : YOLO) (r : BoxRow) (d : Detection) : Prop :=
  det_bbox d = astype_int (xyxy r)
  /\ det_conf d = row_conf r
  /\ det_cls d = Qtrunc (row_cls r)
  /\ dict_get (names m) (det_cls d) = Some (det_label d).

(** The four corners of the box truncate to values of the int64 range. *)
Definition fits_int64 (box : BBox Q) : Prop :=
  let '(x1, y1, x2, y2) := box in
  let fits := fun q : Q => (int64_min <= Qtrunc q <= int64_max)%Z in
  fits x1 /\ fits y1 /\ fits x2 /\ fits y2.

(** A row of the network whose box is well-formed and in the int64 range. *)
Definition row_ok (r : BoxRow) : Prop :=
  well_formed (xyxy r) /\ fits_int64 (xyxy r).

(** The class of the row has a name. *)
Definition class_known (m : YOLO) (r : BoxRow) : Prop :=
  dict_get (names m) (Qtrunc (row_cls r)) <> None.

(** The call [smooth(bbox, conf)] that [process_frame] makes for a
    detection. *)
Definition call_of (d : Detection) : Call Q :=
  CallSmooth (pixel_bbox (det_bbox d)) (det_conf d).

(** A detector with one class, for the examples. *)
Module Samples.
Import String.
Definition hand : string := "hand"%string.
Definition best_pt : string := "models/Yolo/best.pt"%string.
End Samples.

Definition sample_detector : HandDetector :=
  mkHandDetector Samples.best_pt 0.5 (Some (mkYOLO [(0%Z, Samples.hand)])).

(** The smoothed boxes among the boxes drawn, in order. *)
Definition smoothed_boxes (drawn : list Drawn) : list (Returned Q) :=
  flat_map (fun d => match d with
                     | DrawSmooth r => [r]
                     | DrawRaw _ => []
                     end) drawn.

(** A box returned by [smooth] is well-formed. *)
Definition returned_box_well_formed (r : Returned Q) : Prop :=
  returned_well_formed (inr (Some r)).

(** ** The capture loop of [Scripts/Camera_Calibration.py] *)

Definition NUM_IMAGES : nat := 20.

(** The keys the loop tests with [ord('c')] and [ord('q')]. *)
Module CaptureKeys.
Import Ascii.
Definition capture : ascii := "c"%char.
Definition quit : ascii := "q"%char.
End CaptureKeys.

Section Calibration.
(** The object points [objp] and the corner arrays of OpenCV. *)
Variables ObjectPoints Corners : Type.
Variable objp : ObjectPoints.

(** The lists the loop fills and its counter (lines 71-73 and 89). *)
Record CaptureState : Type := mkCapture {
  objpoints : list ObjectPoints;
  imgpoints_l : list Corners;
  imgpoints_r : list Corners;
  count : nat
}.

(** What one pass of the loop gets from the cameras, from OpenCV and from the
    keyboard: the two read flags, the two chessboard flags, the corners
    refined by [cv2.cornerSubPix] and the return value of [cv2.waitKey]. *)
Record FramePair : Type := mkFramePair {
  ret_l : bool;
  ret_r : bool;
  ret_l_cb : bool;
  ret_r_cb : bool;
  corners_l : Corners;
  corners_r : Corners;
  waited_key : Z
}.

Definition capture_start : CaptureState := mkCapture [] [] [] 0.

(** The body of the loop (lines 96-148). *)
Definition capture_step (p : FramePair) (s : CaptureState)
  : CaptureState * LoopAction :=
  if negb (ret_l p) || negb (ret_r p) then (s, Continue)
  else
    let key := Z.land (waited_key p) 255 in
    if (key =? ord CaptureKeys.capture)%Z && ret_l_cb p && ret_r_cb p then
      (mkCapture (objpoints s ++ [objp])
                 (imgpoints_l s ++ [corners_l p])
                 (imgpoints_r s ++ [corners_r p])
                 (count s + 1), Continue)
    else if (key =? ord CaptureKeys.quit)%Z then (s, Break)
    else (s, Continue).

(** The loop [while count < NUM_IMAGES] (line 95) over the passes that
    happen. *)
Fixpoint capture_loop (passes : list FramePair) (s : CaptureState)
  : CaptureState :=
  match passes with
  | [] => s
  | p :: rest =>
      if (count s <? NUM_IMAGES)%nat then
        match capture_step p s with
        | (s', Continue) => capture_loop rest s'
        | (s', Break) => s'
        end
      else s
  end.

(** What the calibration needs of the lists: equal lengths, the length
    counted, at most [NUM_IMAGES] pairs, and [objp] for every pair. *)
Definition capture_invariant (s : CaptureState) : Prop :=
  length (objpoints s) = count s
  /\ length (imgpoints_l s) = count s
  /\ length (imgpoints_r s) = count s
  /\ (count s <= NUM_IMAGES)%nat
  /\ Forall (eq objp) (objpoints s).

End Calibration.

(** * Theorems *)

Unset Implicit Arguments.

Section Generic.
Context {T : Type} {N : Number T} {I : Trunc T}.
Local Open Scope num_scope.

Lemma smooth_cold (bbox : BBox T) (conf : T) (self : FuzzyBBoxSmoother T) :
  prev_cx self = None ->
  smooth bbox conf self =
    (let '(x1, y1, x2, y2) := bbox in
     mkSmoother (Some ((x1 + x2) / lit 2)) (Some ((y1 + y2) / lit 2))
                (Some (x2 - x1)) (Some (y2 - y1)),
     inr (Same bbox)).
Proof.
  destruct bbox as [[[x1 y1] x2] y2]. intros Hcx.
  unfold smooth, bind, get_self. rewrite Hcx. reflexivity.
Qed.

Lemma smooth_tracking_state (pcx pcy pw ph : T) (bbox : BBox T) (conf : T) :
  fst (smooth bbox conf (mkSmoother (Some pcx) (Some pcy) (Some pw) (Some ph)))
  = blend pcx pcy pw ph bbox conf.
Proof.
  destruct bbox as [[[x1 y1] x2] y2].
  unfold smooth, blend, bind, get_self, set_self, operand, int, ret, raise.
  cbn [prev_cx prev_cy prev_w prev_h fst snd].
  repeat match goal with
         | |- context [py_int ?x] => destruct (py_int x)
         end; reflexivity.
Qed.

Lemma reset_state (self : FuzzyBBoxSmoother T) :
  reset self = (mkSmoother None None None None, inr tt).
Proof. reflexivity. Qed.

Lemma perform_keeps_shape (c : Call T) (self : FuzzyBBoxSmoother T) :
  uninitialized self \/ tracking self ->
  uninitialized (fst (perform c self)) \/ tracking (fst (perform c self)).
Proof.
  intros Hs. destruct c as [bbox conf|].
  - assert (Hfst : fst (perform (CallSmooth bbox conf) self)
                   = fst (smooth bbox conf self)).
    { cbn [perform]. unfold bind. destruct (smooth bbox conf self) as [s [e|r]];
        reflexivity. }
    rewrite Hfst. right. destruct Hs as [Hu | (cx & cy & w & h & Ht)].
    + rewrite smooth_cold by (rewrite Hu; reflexivity).
      destruct bbox as [[[x1 y1] x2] y2]. cbn [fst]. repeat eexists.
    + rewrite Ht, smooth_tracking_state.
      destruct bbox as [[[x1 y1] x2] y2]. unfold blend. repeat eexists.
  - left. reflexivity.
Qed.

Lemma trace_shape (calls : list (Call T)) (self : FuzzyBBoxSmoother T) :
  uninitialized self \/ tracking self ->
  Forall (fun step => uninitialized (fst step) \/ tracking (fst step))
         (trace calls self).
Proof.
  revert self. induction calls as [|c rest IH]; intros self Hs; cbn [trace].
  - constructor.
  - constructor.
    + now apply perform_keeps_shape.
    + apply IH. now apply perform_keeps_shape.
Qed.

Lemma perform_smooth_state (bbox : BBox T) (conf : T)
  (self : FuzzyBBoxSmoother T) :
  fst (perform (CallSmooth bbox conf) self) = fst (smooth bbox conf self).
Proof.
  cbn [perform]. unfold bind.
  destruct (smooth bbox conf self) as [s [e|r]]; reflexivity.
Qed.

End Generic.

Section IntIrrelevant.
Context {T : Type} {N : Number T} (I J : Trunc T).

(** The state a call leaves does not depend on what [int] does. *)
Lemma smooth_state_int_irrelevant (bbox : BBox T) (conf : T)
  (self : FuzzyBBoxSmoother T) :
  fst (@smooth T N J bbox conf self) = fst (@smooth T N I bbox conf self).
Proof.
  destruct self as [[pcx|] pcy pw ph].
  - destruct pcy as [pcy|]; [|destruct bbox as [[[? ?] ?] ?]; reflexivity].
    destruct pw as [pw|]; [|destruct bbox as [[[? ?] ?] ?]; reflexivity].
    destruct ph as [ph|]; [|destruct bbox as [[[? ?] ?] ?]; reflexivity].
    rewrite (@smooth_tracking_state T N J).
    rewrite (@smooth_tracking_state T N I).
    reflexivity.
  - rewrite (@smooth_cold T N J) by reflexivity.
    rewrite (@smooth_cold T N I) by reflexivity.
    reflexivity.
Qed.

Lemma state_after_int_irrelevant (calls : list (Call T))
  (self : FuzzyBBoxSmoother T) :
  @state_after T N J calls self = @state_after T N I calls self.
Proof.
  revert self. induction calls as [|c rest IH]; intros self.
  - reflexivity.
  - unfold state_after in *. cbn [fold_left]. rewrite IH. f_equal.
    destruct c as [bbox conf|].
    + rewrite (@perform_smooth_state T N J), (@perform_smooth_state T N I).
      apply smooth_state_int_irrelevant.
    + reflexivity.
Qed.

End IntIrrelevant.

(** C2. The first call to [smooth] after construction, or after [reset()],
    returns the bbox it was given, unchanged, and stores the centre and the
    size of that bbox as the new state, for every bbox and every confidence
    and over every kind of number: nothing is smoothed or clamped. *)
Theorem smooth_cold_start_identity :
  forall (T : Type) (N : Number T) (I : Trunc T) (x1 y1 x2 y2 conf : T)
         (self : FuzzyBBoxSmoother T),
    let bbox := (x1, y1, x2, y2) in
    let stored := mkSmoother (Some ((x1 + x2) / lit 2)%num)
                             (Some ((y1 + y2) / lit 2)%num)
                             (Some (x2 - x1)%num) (Some (y2 - y1)%num) in
    smooth bbox conf init = (stored, inr (Same bbox))
    /\ smooth bbox conf (fst (reset self)) = (stored, inr (Same bbox)).
Proof.
  intros T N I x1 y1 x2 y2 conf self bbox stored. split.
  - apply (smooth_cold bbox conf). reflexivity.
  - rewrite reset_state. apply (smooth_cold bbox conf). reflexivity.
Qed.

(** C8. After every sequence of [smooth] and [reset] calls on a freshly
    constructed smoother, and after every prefix of it, the four state
    variables are all absent or all present: no operation, returning or
    raising, leaves the state partially initialized. *)
Theorem state_never_partially_initialized :
  forall (T : Type) (N : Number T) (I : Trunc T) (calls : list (Call T)),
    Forall (fun step => uninitialized (fst step) \/ tracking (fst step))
           (trace calls init).
Proof.
  intros T N I calls. apply trace_shape. left. reflexivity.
Qed.


Section Exact.
Variable sqrt : Q -> Q.
Local Abbreviation exactN := (QNumber sqrt).
#[local] Hint Extern 0 (Number Q) => exact exactN : typeclass_instances.

(** *** Order facts on the rationals *)

(** Linear arithmetic on [Q] with halves written [_ / 2]. *)
Ltac qlra := unfold Qdiv in *; change (/ 2) with (1 # 2) in *; lra.

Lemma Qltb_lt (x y : Q) : Qltb x y = true <-> x < y.
Proof.
  unfold Qltb. rewrite negb_true_iff. split.
  - intros Hb. apply Qnot_le_lt. intros Hle.
    apply Qle_bool_iff in Hle. congruence.
  - intros Hlt. destruct (Qle_bool y x) eqn:Hb; [|reflexivity].
    apply Qle_bool_iff in Hb. exfalso. exact (Qlt_not_le _ _ Hlt Hb).
Qed.

Lemma Qltb_ge (x y : Q) : Qltb x y = false <-> y <= x.
Proof.
  unfold Qltb. rewrite negb_false_iff. apply Qle_bool_iff.
Qed.

Lemma Qtrunc_floor (q : Q) : 0 <= q -> Qtrunc q = Qfloor q.
Proof.
  destruct q as [n d]. unfold Qle, Qtrunc, Qfloor. cbn. intros Hn.
  apply Z.quot_div_nonneg; lia.
Qed.

Lemma Qtrunc_ceiling (q : Q) : q <= 0 -> Qtrunc q = Qceiling q.
Proof.
  destruct q as [n d]. unfold Qle, Qtrunc, Qceiling, Qfloor. cbn. intros Hn.
  replace n with (- - n)%Z at 1 by lia.
  rewrite Z.quot_opp_l by lia. f_equal.
  apply Z.quot_div_nonneg; lia.
Qed.

Lemma Qtrunc_le (p q : Q) : p <= q -> (Qtrunc p <= Qtrunc q)%Z.
Proof.
  intros Hpq.
  destruct (Qlt_le_dec p 0) as [Hp|Hp]; destruct (Qlt_le_dec q 0) as [Hq|Hq].
  - rewrite !Qtrunc_ceiling by (apply Qlt_le_weak; assumption).
    now apply Qceiling_resp_le.
  - rewrite (Qtrunc_ceiling p) by (apply Qlt_le_weak; assumption).
    rewrite (Qtrunc_floor q Hq).
    transitivity (Qceiling 0).
    + apply Qceiling_resp_le. now apply Qlt_le_weak.
    + change (Qceiling 0) with (Qfloor 0). now apply Qfloor_resp_le.
  - exfalso. apply (Qlt_not_le _ _ Hq). now apply Qle_trans with p.
  - rewrite (Qtrunc_floor p Hp), (Qtrunc_floor q Hq). now apply Qfloor_resp_le.
Qed.

(** *** The controller, in exact arithmetic *)

(** The operations of the instance, read as operations on [Q]. *)
Ltac qops :=
  change (@add Q exactN) with Qplus in *;
  change (@sub Q exactN) with Qminus in *;
  change (@mul Q exactN) with Qmult in *;
  change (@div Q exactN) with Qdiv in *;
  change (@ltb Q exactN) with Qltb in *;
  change (@eqb Q exactN) with Qeq_bool in *;
  change (@lit Q exactN) with (fun q : Q => q) in *;
  cbv beta in *.

Lemma fmax_ge_l (x y : Q) : x <= fmax x y.
Proof.
  unfold fmax. qops. destruct (Qltb x y) eqn:Hb.
  - apply Qltb_lt in Hb. lra.
  - lra.
Qed.


Lemma fmax_le (x y b : Q) : x <= b -> y <= b -> fmax x y <= b.
Proof. intros Hx Hy. unfold fmax. destruct (x <? y)%num; assumption. Qed.

Lemma fmin_le_l (x y : Q) : fmin x y <= x.
Proof.
  unfold fmin. qops. destruct (Qltb y x) eqn:Hb.
  - apply Qltb_lt in Hb. lra.
  - lra.
Qed.

Lemma fmin_ge (x y b : Q) : b <= x -> b <= y -> b <= fmin x y.
Proof. intros Hx Hy. unfold fmin. destruct (y <? x)%num; assumption. Qed.

Lemma fold_fmax_ge (l : list Q) (a : Q) : a <= fold_left fmax l a.
Proof.
  revert a. induction l as [|x l IH]; intros a; cbn [fold_left].
  - lra.
  - apply Qle_trans with (fmax a x); [apply fmax_ge_l | apply IH].
Qed.


Lemma fold_fmax_le (l : list Q) (a b : Q) :
  a <= b -> (forall x, In x l -> x <= b) -> fold_left fmax l a <= b.
Proof.
  revert a. induction l as [|x l IH]; intros a Ha Hl; cbn [fold_left].
  - exact Ha.
  - apply IH.
    + apply fmax_le; [exact Ha | apply Hl; now left].
    + intros y Hy. apply Hl. now right.
Qed.

(** The aggregate output set is never negative. *)
Lemma aggregate_nonneg (m c x : Q) : 0 <= aggregate m c x.
Proof. unfold aggregate. apply (fold_fmax_ge _ 0). Qed.

(** The sample points of the alpha universe lie in [0, 1]. *)
Lemma alpha_universe_bounds (x : Q) : In x alpha_universe -> 0 <= x <= 1.
Proof.
  unfold alpha_universe. rewrite in_map_iff. intros (i & <- & Hi).
  apply in_seq in Hi. qops. unfold Qle. cbn. lia.
Qed.

Lemma fold_plus_from (l : list Q) (a : Q) :
  fold_left Qplus l a == a + fold_left Qplus l 0.
Proof.
  revert a. induction l as [|x l IH]; intros a; cbn [fold_left].
  - lra.
  - rewrite (IH (a + x)), (IH (0 + x)). lra.
Qed.

Lemma total_nil : total (@nil Q) == 0.
Proof. reflexivity. Qed.

Lemma total_cons (x : Q) (l : list Q) : total (x :: l) == x + total l.
Proof.
  unfold total. cbn [fold_left]. qops. rewrite fold_plus_from. lra.
Qed.



Lemma total_zero (l : list Q) :
  (forall x, In x l -> x == 0) -> total l == 0.
Proof.
  induction l as [|x l IH]; intros Hl.
  - apply total_nil.
  - rewrite total_cons, IH by (intros y Hy; apply Hl; now right).
    rewrite (Hl x) by now left. lra.
Qed.

(** A weighted sum of points of [0, 1] with non-negative weights lies
    between 0 and the sum of the weights. *)
Lemma weighted_total_bounds (g : Q -> Q) (l : list Q) :
  (forall x, 0 <= g x) -> (forall x, In x l -> 0 <= x <= 1) ->
  0 <= total (map (fun x => (x * g x)%num) l) <= total (map g l).
Proof.
  intros Hg. induction l as [|x l IH]; intros Hl; cbn [map].
  - rewrite !total_nil. lra.
  - rewrite !total_cons. qops.
    assert (Hx : 0 <= x <= 1) by (apply Hl; now left).
    assert (H0 : 0 <= x * g x) by (apply Qmult_le_0_compat; [lra | apply Hg]).
    assert (H1 : 0 <= (1 - x) * g x)
      by (apply Qmult_le_0_compat; [lra | apply Hg]).
    assert (IH' := IH (fun y Hy => Hl y (or_intror Hy))).
    lra.
Qed.

(** [compute], with the comparison and the division read on [Q]. *)
Lemma compute_unfold (m c : Q) :
  compute m c =
  (if Qeq_bool (total (map (aggregate m c) alpha_universe)) 0
   then None
   else Some (total (map (fun x => (x * aggregate m c x)%num) alpha_universe)
              / total (map (aggregate m c) alpha_universe))).
Proof. reflexivity. Qed.

Lemma centroid_bounds (moment area : Q) :
  0 <= moment <= area -> ~ area == 0 -> 0 <= moment / area <= 1.
Proof.
  intros [Hlo Hhi] Hz.
  assert (Hpos : 0 < area).
  { destruct (Qlt_le_dec 0 area) as [Hp|Hn]; [exact Hp|].
    exfalso. apply Hz. apply Qle_antisym; lra. }
  split.
  - apply Qle_shift_div_l; [exact Hpos | lra].
  - apply Qle_shift_div_r; [exact Hpos | lra].
Qed.

(** The centroid, when the engine returns one, lies in [0, 1]. *)
Lemma compute_bounds (m c a : Q) : compute m c = Some a -> 0 <= a <= 1.
Proof.
  rewrite compute_unfold.
  pose proof (weighted_total_bounds (aggregate m c) alpha_universe
                (aggregate_nonneg m c) alpha_universe_bounds) as Hb.
  revert Hb.
  generalize (total (map (fun x => (x * aggregate m c x)%num) alpha_universe)).
  generalize (total (map (aggregate m c) alpha_universe)).
  intros area moment Hb.
  destruct (Qeq_bool area 0) eqn:Hz; [discriminate|].
  intros Ha. injection Ha as <-.
  apply Qeq_bool_neq in Hz. now apply centroid_bounds.
Qed.

Lemma infer_bounds (m c : Q) : 0 <= infer m c <= 1.
Proof.
  unfold infer. destruct (compute m c) as [a|] eqn:Hc.
  - exact (compute_bounds m c a Hc).
  - qops. lra.
Qed.

(** When no rule fires, every aggregated strength is zero. *)
Lemma aggregated_strength_zero (t : alpha_term) (m c : Q) :
  (forall r, In r rules -> firing_strength r m c == 0) ->
  aggregated_strength t m c == 0.
Proof.
  intros Hr. unfold aggregated_strength. qops. apply Qle_antisym.
  - apply fold_fmax_le; [lra|].
    intros x Hx. apply in_map_iff in Hx. destruct Hx as (r & <- & Hin).
    apply filter_In in Hin. rewrite (Hr r) by apply Hin. lra.
  - apply (fold_fmax_ge _ 0).
Qed.

Lemma aggregate_zero (m c x : Q) :
  (forall r, In r rules -> firing_strength r m c == 0) ->
  aggregate m c x == 0.
Proof.
  intros Hr. apply Qle_antisym; [|apply aggregate_nonneg].
  unfold aggregate. qops. apply fold_fmax_le; [lra|].
  intros y Hy. apply in_map_iff in Hy. destruct Hy as (t & <- & _).
  apply Qle_trans with (aggregated_strength t m c); [apply fmin_le_l|].
  rewrite (aggregated_strength_zero t m c Hr). lra.
Qed.

Lemma total_membership_zero (m c : Q) :
  (forall r, In r rules -> firing_strength r m c == 0) ->
  total (map (aggregate m c) alpha_universe) == 0.
Proof.
  intros Hr. apply total_zero.
  intros y Hy. apply in_map_iff in Hy. destruct Hy as (x & <- & _).
  now apply aggregate_zero.
Qed.

(** *** Inside the clamped domains some rule always fires *)

Ltac qbool :=
  repeat match goal with
         | H : Qltb _ _ = true |- _ => apply Qltb_lt in H
         | H : Qltb _ _ = false |- _ => apply Qltb_ge in H
         | H : Qeq_bool _ _ = true |- _ => apply Qeq_bool_iff in H
         | H : Qeq_bool _ _ = false |- _ => apply Qeq_bool_neq in H
         end.










(** C3. For every motion magnitude in [0, 100] and every confidence in
    [0, 1], the inference (fuzzification, min-conjunction, max aggregation,
    centroid over the 101 sample points, fallback 0.3) returns an alpha in
    [0, 1]. *)
Theorem infer_alpha_in_unit_interval :
  forall m c : Q,
    0 <= m <= 100 -> 0 <= c <= 1 -> 0 <= infer m c <= 1.
Proof. intros m c _ _. apply infer_bounds. Qed.

(** On an input pair on which no rule fires with a nonzero strength, the
    total aggregated membership is zero, the engine gives no centroid, and
    the inference yields alpha = 0.3 exactly.  No input of the clamped
    domains is of this kind (see below). *)
Lemma no_rule_fires_gives_fallback :
  forall m c : Q,
    (forall r, In r rules -> firing_strength r m c == 0) ->
    total (map (aggregate m c) alpha_universe) == 0
    /\ compute m c = None
    /\ infer m c = 0.3.
Proof.
  intros m c Hr.
  pose proof (total_membership_zero m c Hr) as Hz.
  assert (Hc : compute m c = None).
  { rewrite compute_unfold. revert Hz.
    generalize (total (map (aggregate m c) alpha_universe)).
    intros area Hz. apply Qeq_bool_iff in Hz. now rewrite Hz. }
  split; [exact Hz|]. split; [exact Hc|].
  unfold infer. now rewrite Hc.
Qed.

(** C5. With motion magnitude 0 and confidence 0.9 the inferred alpha is at
    most 0.2 (it is 1/15). *)
Theorem alpha_low_without_motion : infer 0 0.9 <= 0.2.
Proof. vm_compute. intros Hgt. discriminate Hgt. Qed.

(** C6. With motion magnitude 90 and confidence 0.9 the inferred alpha is at
    least 0.8 (it is 11/12). *)
Theorem alpha_high_on_confident_fast_motion : 0.8 <= infer 90 0.9.
Proof. vm_compute. intros Hgt. discriminate Hgt. Qed.

(** *** One call, in exact arithmetic *)

Lemma smooth_tracking_step (pcx pcy pw ph : Q) (bbox : BBox Q) (conf : Q) :
  tracking_step exactN Qtrunc pcx pcy pw ph bbox conf.
Proof.
  destruct bbox as [[[x1 y1] x2] y2]. unfold tracking_step. reflexivity.
Qed.

Lemma smooth_tracking_exact (pcx pcy pw ph x1 y1 x2 y2 conf : Q) :
  exists ncx ncy : Q,
    let nw := pw + 0.5 * ((x2 - x1) - pw) in
    let nh := ph + 0.5 * ((y2 - y1) - ph) in
    smooth (x1, y1, x2, y2) conf
           (mkSmoother (Some pcx) (Some pcy) (Some pw) (Some ph))
    = (mkSmoother (Some ncx) (Some ncy) (Some nw) (Some nh),
       inr (Pixels Q (corners Qtrunc ncx ncy nw nh))).
Proof.
  pose proof (smooth_tracking_step pcx pcy pw ph (x1, y1, x2, y2) conf) as Hs.
  unfold tracking_step in Hs. cbv zeta in Hs.
  eexists. eexists. exact Hs.
Qed.

Lemma corners_well_formed (cx cy w h : Q) :
  0 <= w -> 0 <= h ->
  let '(x1, y1, x2, y2) := corners Qtrunc cx cy w h in
  (x1 <= x2)%Z /\ (y1 <= y2)%Z.
Proof.
  intros Hw Hh. unfold corners. split; apply Qtrunc_le; qlra.
Qed.

(** A call on a well-shaped state with non-negative sizes returns a
    well-formed bbox and leaves such a state. *)
Lemma perform_well_formed (c : Call Q) (self : FuzzyBBoxSmoother Q) :
  uninitialized self \/ tracking self -> size_nonneg self ->
  well_formed_call c ->
  size_nonneg (fst (perform c self))
  /\ returned_well_formed (snd (perform c self)).
Proof.
  intros Hshape [Hw Hh] Hc. destruct c as [[[[x1 y1] x2] y2] conf|].
  - cbn in Hc. destruct Hc as [Hx Hy].
    destruct Hshape as [Hu | (pcx & pcy & pw & ph & Ht)];
      [unfold uninitialized in Hu|]; subst self.
    + cbn [perform]. unfold bind.
      rewrite smooth_cold by reflexivity. cbn.
      split; [split; intros v Hv; injection Hv as <-; lra | split; assumption].
    + specialize (Hw pw eq_refl). specialize (Hh ph eq_refl).
      destruct (smooth_tracking_exact pcx pcy pw ph x1 y1 x2 y2 conf)
        as (ncx & ncy & Heq).
      cbn zeta in Heq. cbn [perform]. unfold bind. rewrite Heq.
      cbn [fst snd ret returned_well_formed].
      assert (Hnw : 0 <= pw + 0.5 * (x2 - x1 - pw)) by lra.
      assert (Hnh : 0 <= ph + 0.5 * (y2 - y1 - ph)) by lra.
      split.
      * split; intros v Hv; cbn in Hv; injection Hv as <-; assumption.
      * apply (corners_well_formed ncx ncy _ _ Hnw Hnh).
  - cbn. split; [split; intros v Hv; discriminate Hv | exact I].
Qed.

Lemma trace_well_formed (calls : list (Call Q)) (self : FuzzyBBoxSmoother Q) :
  uninitialized self \/ tracking self -> size_nonneg self ->
  Forall well_formed_call calls ->
  Forall (fun step => size_nonneg (fst step)
                      /\ returned_well_formed (snd step))
         (trace calls self).
Proof.
  revert self. induction calls as [|c rest IH]; intros self Hshape Hsize Hwf;
    cbn [trace].
  - constructor.
  - inversion Hwf as [|c' rest' Hc Hrest]; subst.
    destruct (perform_well_formed c self Hshape Hsize Hc) as [Hsize' Hret].
    constructor.
    + split; assumption.
    + apply IH; [now apply perform_keeps_shape | assumption | assumption].
Qed.

(** A call on a well-shaped state returns. *)
Lemma perform_returns (c : Call Q) (self : FuzzyBBoxSmoother Q) :
  uninitialized self \/ tracking self -> returns (snd (perform c self)).
Proof.
  intros Hshape. destruct c as [[[[x1 y1] x2] y2] conf|].
  - destruct Hshape as [Hu | (pcx & pcy & pw & ph & Ht)];
      [unfold uninitialized in Hu|]; subst self.
    + cbn [perform]. unfold bind. rewrite smooth_cold by reflexivity.
      exact I.
    + destruct (smooth_tracking_exact pcx pcy pw ph x1 y1 x2 y2 conf)
        as (ncx & ncy & Heq).
      cbn zeta in Heq. cbn [perform]. unfold bind. rewrite Heq. exact I.
  - exact I.
Qed.

Lemma trace_returns (calls : list (Call Q)) (self : FuzzyBBoxSmoother Q) :
  uninitialized self \/ tracking self ->
  Forall (fun step => returns (snd step)) (trace calls self).
Proof.
  revert self. induction calls as [|c rest IH]; intros self Hshape;
    cbn [trace]; constructor.
  - now apply perform_returns.
  - apply IH. now apply perform_keeps_shape.
Qed.

(** C1, as the code has it.  In the Tracking state a call to [smooth] moves
    the stored centre by [alpha] toward the raw centre, per axis, with
    [alpha] inferred from the clipped motion magnitude and the clipped
    confidence; it moves the stored size half way toward the raw size; and it
    returns the corners [cx - w/2], [cy - h/2], [cx + w/2], [cy + h/2] of the
    new centre and size converted by [int], that is truncated toward zero
    (not rounded to the nearest integer). *)
Theorem smooth_tracking_truncates :
  forall (pcx pcy pw ph : Q) (bbox : BBox Q) (conf : Q),
    tracking_step exactN Qtrunc pcx pcy pw ph bbox conf.
Proof.
  intros pcx pcy pw ph bbox conf. apply smooth_tracking_step.
Qed.

(** C9, as the code has it.  In exact arithmetic, where no value overflows
    or becomes NaN, along every call sequence whose input bboxes are all
    well-formed ([x1 <= x2] and [y1 <= y2]), after every call the stored
    width and height are not negative, and every call to [smooth] returns a
    bbox that is well-formed itself. *)
Theorem well_formed_bboxes_stay_well_formed :
  forall calls : list (Call Q),
    Forall well_formed_call calls ->
    Forall (fun step => size_nonneg (fst step)
                        /\ returned_well_formed (snd step))
           (trace calls init).
Proof.
  intros calls Hwf. apply trace_well_formed.
  - left. reflexivity.
  - split; intros v Hv; discriminate Hv.
  - exact Hwf.
Qed.

(** C7, as the code has it.  In exact arithmetic, where no value overflows
    or becomes NaN, no call of any sequence of [smooth] and [reset] calls on
    a fresh smoother raises: each [smooth] returns four numbers. *)
Theorem smooth_never_raises_in_exact_arithmetic :
  forall calls : list (Call Q),
    Forall (fun step => returns (snd step)) (trace calls init).
Proof.
  intros calls. apply trace_returns. left. reflexivity.
Qed.

(** ** Further properties of the smoother, in exact arithmetic *)

Lemma np_clip_bounds (x lo hi : Q) :
  lo <= hi -> lo <= np_clip x lo hi <= hi.
Proof.
  intros Hlh. unfold np_clip, fmin, fmax. qops.
  destruct (Qltb x lo) eqn:E1; qbool.
  - destruct (Qltb hi lo) eqn:E2; qbool; lra.
  - destruct (Qltb hi x) eqn:E2; qbool; lra.
Qed.

Lemma np_clip_inside (x lo hi : Q) :
  lo <= x <= hi -> np_clip x lo hi = x.
Proof.
  intros Hx. unfold np_clip, fmin, fmax. qops.
  destruct (Qltb x lo) eqn:E1; qbool; [lra|].
  destruct (Qltb hi x) eqn:E2; qbool; [lra|]. reflexivity.
Qed.

Lemma np_clip_idempotent (x lo hi : Q) :
  lo <= hi -> np_clip (np_clip x lo hi) lo hi = np_clip x lo hi.
Proof. intros Hlh. apply np_clip_inside. now apply np_clip_bounds. Qed.

(** X1. In the Tracking state the new centre lies between the stored centre
    and the raw centre, per axis, and the new size between the stored size
    and the raw size: the filter never overshoots the detection and never
    moves away from it. *)
Theorem smoothed_state_between :
  forall pcx pcy pw ph x1 y1 x2 y2 conf : Q,
    exists ncx ncy nw nh : Q,
      fst (smooth (x1, y1, x2, y2) conf
             (mkSmoother (Some pcx) (Some pcy) (Some pw) (Some ph)))
      = mkSmoother (Some ncx) (Some ncy) (Some nw) (Some nh)
      /\ between pcx ((x1 + x2) / 2) ncx
      /\ between pcy ((y1 + y2) / 2) ncy
      /\ between pw (x2 - x1) nw
      /\ between ph (y2 - y1) nh.
Proof.
  intros pcx pcy pw ph x1 y1 x2 y2 conf.
  pose proof (smooth_tracking_step pcx pcy pw ph (x1, y1, x2, y2) conf) as Hs.
  unfold tracking_step in Hs. cbv zeta in Hs. rewrite Hs. cbn [fst].
  match goal with
  | |- context [infer ?m ?c] =>
      pose proof (infer_bounds m c) as Ha; revert Ha; generalize (infer m c)
  end.
  intros a Ha. do 4 eexists. split; [reflexivity|].
  assert (Hmix : forall p r : Q, between p r (p + a * (r - p))).
  { intros p r. unfold between.
    destruct (Qlt_le_dec r p) as [Hrp|Hpr].
    - right.
      assert (0 <= a * (p - r)) by (apply Qmult_le_0_compat; lra).
      assert (0 <= (1 - a) * (p - r)) by (apply Qmult_le_0_compat; lra).
      lra.
    - left.
      assert (0 <= a * (r - p)) by (apply Qmult_le_0_compat; lra).
      assert (0 <= (1 - a) * (r - p)) by (apply Qmult_le_0_compat; lra).
      lra. }
  assert (Hhalf : forall p r : Q, between p r (p + 0.5 * (r - p))).
  { intros p r. unfold between.
    destruct (Qlt_le_dec r p) as [Hrp|Hpr]; [right | left]; lra. }
  repeat split; first [apply Hmix | apply Hhalf].
Qed.

(** X2. The confidence enters [smooth] only through its clip to [0, 1]: a
    call with any confidence is the call with the clipped confidence, in
    every state. *)
Theorem smooth_depends_on_clipped_confidence :
  forall (bbox : BBox Q) (conf : Q) (self : FuzzyBBoxSmoother Q),
    smooth bbox conf self = smooth bbox (np_clip conf 0 1) self.
Proof.
  intros [[[x1 y1] x2] y2] conf [[pcx|] [pcy|] [pw|] [ph|]];
    try reflexivity.
  pose proof (smooth_tracking_step pcx pcy pw ph (x1, y1, x2, y2) conf) as H1.
  pose proof (smooth_tracking_step pcx pcy pw ph (x1, y1, x2, y2)
                (np_clip conf 0 1)) as H2.
  unfold tracking_step in H1, H2. cbv zeta in H1, H2.
  rewrite H1, H2.
  assert (Hi : np_clip (np_clip conf 0 1) 0 1 = np_clip conf 0 1)
    by (apply np_clip_idempotent; lra).
  rewrite Hi. reflexivity.
Qed.


Lemma Qtrunc_inject (q : Q) (z : Z) : q == inject_Z z -> Qtrunc q = z.
Proof.
  intros Hq.
  assert (Hz : Qtrunc (inject_Z z) = z) by (unfold Qtrunc; cbn; apply Z.quot_1_r).
  assert (H1 : (Qtrunc q <= Qtrunc (inject_Z z))%Z) by (apply Qtrunc_le; lra).
  assert (H2 : (Qtrunc (inject_Z z) <= Qtrunc q)%Z) by (apply Qtrunc_le; lra).
  lia.
Qed.

(** A call with the bbox the state is settled on returns that bbox and
    leaves the state settled on it. *)
Lemma smooth_settled (box : BBox Z) (conf : Q) (self : FuzzyBBoxSmoother Q) :
  settled_on (pixel_bbox box) self ->
  snd (smooth (pixel_bbox box) conf self) = inr (Pixels Q box)
  /\ settled_on (pixel_bbox box) (fst (smooth (pixel_bbox box) conf self)).
Proof.
  destruct box as [[[x1 y1] x2] y2]. cbn [pixel_bbox settled_on].
  intros (cx & cy & w & h & -> & Hcx & Hcy & Hw & Hh).
  pose proof (smooth_tracking_step cx cy w h
                (inject_Z x1, inject_Z y1, inject_Z x2, inject_Z y2) conf)
    as Hs.
  unfold tracking_step in Hs. cbv zeta in Hs. rewrite Hs. cbn [fst snd].
  match goal with
  | |- context [infer ?m ?c] => generalize (infer m c)
  end.
  intros a.
  assert (Hax : a * ((inject_Z x1 + inject_Z x2) / 2 - cx) == 0)
    by (rewrite Hcx; ring).
  assert (Hay : a * ((inject_Z y1 + inject_Z y2) / 2 - cy) == 0)
    by (rewrite Hcy; ring).
  unfold Qdiv in *. change (/ 2) with (1 # 2) in *.
  split.
  - unfold corners, Qdiv. change (/ 2) with (1 # 2).
    repeat f_equal; apply Qtrunc_inject; lra.
  - do 4 eexists. split; [reflexivity|]. repeat split; lra.
Qed.

Lemma trace_settled (box : BBox Z) (confs : list Q)
  (self : FuzzyBBoxSmoother Q) :
  settled_on (pixel_bbox box) self ->
  map snd (trace (map (CallSmooth (pixel_bbox box)) confs) self)
  = repeat (inr (Some (Pixels Q box))) (length confs).
Proof.
  revert self. induction confs as [|conf confs IH]; intros self Hs.
  - reflexivity.
  - destruct (smooth_settled box conf self Hs) as [Hret Hst].
    cbn [map trace length repeat]. f_equal.
    + cbn [perform]. unfold bind.
      destruct (smooth (pixel_bbox box) conf self) as [s [e|r]];
        cbn [snd] in Hret; [discriminate Hret|].
      injection Hret as ->. reflexivity.
    + apply IH. rewrite perform_smooth_state. exact Hst.
Qed.

(** X4. Repeating one detection with integer corners is a fixed point: the
    first call returns the bbox as given, and every later call returns the
    same four integers again, whatever the confidences. *)
Theorem repeated_detection_is_returned_unchanged :
  forall (box : BBox Z) (conf : Q) (confs : list Q),
    map snd (trace (map (CallSmooth (pixel_bbox box)) (conf :: confs)) init)
    = inr (Some (Same (pixel_bbox box)))
      :: repeat (inr (Some (Pixels Q box))) (length confs).
Proof.
  intros box conf confs. cbn [map trace]. f_equal.
  - cbn [perform]. unfold bind.
    rewrite smooth_cold by reflexivity. reflexivity.
  - apply trace_settled. rewrite perform_smooth_state.
    rewrite smooth_cold by reflexivity.
    destruct box as [[[x1 y1] x2] y2]. cbn [pixel_bbox fst settled_on].
    do 4 eexists. split; [reflexivity|]. repeat split; reflexivity.
Qed.



(** ** The fallback inside the clamped domains *)




End Exact.

Lemma infer_alpha_in_unit_interval_witness :
  (0 <= 10 <= 100 /\ 0 <= 0.9 <= 1) /\ 0 <= @infer Q Q53 10 0.9 <= 1.
Proof.
  assert (Hm : 0 <= 10 <= 100) by lra.
  assert (Hc : 0 <= 0.9 <= 1) by lra.
  split.
  - split; assumption.
  - exact (infer_alpha_in_unit_interval Qsqrt 10 0.9 Hm Hc).
Defined.

Lemma well_formed_bboxes_stay_well_formed_witness :
  Forall well_formed_call scenario
  /\ Forall (fun step => size_nonneg (fst step)
                         /\ returned_well_formed (snd step))
            (@trace Q Q53 QTrunc scenario init).
Proof.
  assert (Hwf : Forall well_formed_call scenario).
  { repeat constructor; cbn; lra. }
  split.
  - exact Hwf.
  - exact (well_formed_bboxes_stay_well_formed Qsqrt scenario Hwf).
Defined.

(** C1, as the specification words it, fails: with the stored centre (15, 5)
    and size (13, 10), the bbox (6, 0, 24, 10) gives the new right edge
    22.75, which the code returns as 22 and rounding would give as 23. *)
Lemma smooth_tracking_does_not_round :
  ~ tracking_step Q53 py_round 15 5 13 10 (6, 0, 24, 10) 0.9.
Proof.
  unfold tracking_step. intros Heq.
  apply (f_equal snd) in Heq. vm_compute in Heq. discriminate Heq.
Qed.

(** ** The end-to-end scenarios of the specification, run *)

(** Cold start, one Tracking step of 10 pixels (alpha is 2/5 and the centre
    moves from 150 to 154), a reset and a new cold start. *)
Example scenario_exact :
  map snd (@trace Q Q53 QTrunc scenario init)
  = [inr (Some (Same (100, 100, 200, 200)));
     inr (Some (Pixels Q (104, 100, 204, 200)%Z));
     inr None;
     inr (Some (Same (0, 0, 10, 10)))].
Proof. vm_compute. reflexivity. Qed.

(** The same calls on binary64 return the same pixels. *)
Example scenario_binary64 :
  let f := fun z : Z => @lit float FloatNumber (inject_Z z) in
  let box := fun a b c d : Z => (f a, f b, f c, f d) in
  let conf := @lit float FloatNumber 0.9 in
  map snd (trace [CallSmooth (box 100 100 200 200)%Z conf;
                  CallSmooth (box 110 100 210 200)%Z conf] init)
  = [inr (Some (Same (box 100 100 200 200)%Z));
     inr (Some (Pixels float (104, 100, 204, 200)%Z))].
Proof. vm_compute. reflexivity. Qed.

(** On binary64 the two sample points of C5 and C6 land on the same side of
    their bounds as in exact arithmetic. *)
Example alpha_samples_binary64 :
  let f := @lit float FloatNumber in
  PrimFloat.leb (infer (f 0) (f 0.9)) (f 0.2) = true
  /\ PrimFloat.leb (f 0.8) (infer (f 90) (f 0.9)) = true.
Proof. vm_compute. split; reflexivity. Qed.

(** C7, as the specification words it, fails on floats.  The bbox
    (-2^1023, 0, 2^1023, 0) has four finite coordinates; its width overflows
    to infinity, the second call blends infinity with infinity into NaN, and
    [int(nan)] raises [ValueError] out of [smooth]. *)
Lemma smooth_raises_on_float_overflow :
  let bbox := ((-0x1p+1023)%float, 0%float, 0x1p+1023%float, 0%float) in
  map snd (trace [CallSmooth bbox 0.5%float; CallSmooth bbox 0.5%float] init)
  = [inr (Some (Same bbox)); inl ValueError].
Proof. vm_compute. reflexivity. Qed.

(** C10. After a Tracking-state call the state holds the blended centre and
    size as computed, unrounded, and [get_debug_info] shows exactly them; the
    states along a call sequence are the same whatever [int] does to the
    returned corners, so no rounding error enters later steps; and the stored
    centre can differ from the centre of the returned bbox (here 15 against
    14.5). *)
Theorem stored_state_is_unrounded :
  (forall (T : Type) (N : Number T) (I : Trunc T) (pcx pcy pw ph : T)
          (bbox : BBox T) (conf : T),
      let b := blend pcx pcy pw ph bbox conf in
      let self' := fst (smooth bbox conf
                          (mkSmoother (Some pcx) (Some pcy) (Some pw) (Some ph)))
      in
      self' = b
      /\ get_debug_info self'
         = (self', inr (prev_cx b, prev_cy b, prev_w b, prev_h b)))
  /\ (forall (T : Type) (N : Number T) (I J : Trunc T) (calls : list (Call T)),
        @state_after T N J calls init = @state_after T N I calls init)
  /\ (exists (box : BBox Z) (ncx ncy nw nh : Q),
        @smooth Q Q53 QTrunc (6, 0, 24, 10) 0.9
                (mkSmoother (Some 15) (Some 5) (Some 13) (Some 10))
        = (mkSmoother (Some ncx) (Some ncy) (Some nw) (Some nh),
           inr (Pixels Q box))
        /\ ~ fst (fst (fst (center_size box))) == ncx).
Proof.
  split; [|split].
  - intros T N I pcx pcy pw ph bbox conf b self'. subst b self'.
    rewrite smooth_tracking_state. split; reflexivity.
  - intros T N I J calls. apply state_after_int_irrelevant.
  - do 5 eexists. split.
    + vm_compute. reflexivity.
    + vm_compute. intros Heq. discriminate Heq.
Qed.

(** * Further properties *)

(** ** The rule table and [reset] *)

(** X6. The rule table of [__init__] is complete and free of conflicts:
    every pair of a motion term and a confidence term has exactly one rule,
    hence exactly one alpha term. *)
Theorem rule_table_is_a_function :
  forall (tm : motion_term) (tc : confidence_term),
    exists ta : alpha_term,
      In (mkRule tm tc ta) rules
      /\ forall ta', In (mkRule tm tc ta') rules -> ta' = ta.
Proof.
  intros tm tc.
  destruct tm, tc; eexists; (split; [unfold rules; cbn [In]; tauto|]);
    intros ta' Hin; unfold rules in Hin; cbn [In] in Hin;
    repeat (destruct Hin as [Hin|Hin];
            [first [discriminate Hin | now injection Hin]|]);
    destruct Hin.
Qed.

Section History.
Context {T : Type} {N : Number T} {I : Trunc T}.

Lemma trace_app (pre post : list (Call T)) (self : FuzzyBBoxSmoother T) :
  trace (pre ++ post) self
  = trace pre self ++ trace post (state_after pre self).
Proof.
  revert self. induction pre as [|c pre IH]; intros self.
  - reflexivity.
  - cbn [app trace]. rewrite IH. reflexivity.
Qed.

End History.

(** X7. [reset] erases the history: whatever calls came before it, the calls
    after a [reset] return, raise and store exactly what they would on a
    freshly constructed smoother. *)
Theorem reset_erases_history :
  forall (T : Type) (N : Number T) (I : Trunc T)
         (pre post : list (Call T)),
    trace (pre ++ CallReset :: post) init
    = trace pre init ++ (init, inr None) :: trace post init.
Proof.
  intros T N I pre post. rewrite trace_app. reflexivity.
Qed.

(** ** The frame-rate meter *)

Lemma py_div_ok (x y : Q) : ~ y == 0 -> py_div x y = inr (x / y).
Proof.
  intros Hy. unfold py_div. destruct (Qeq_bool y 0) eqn:E; [|reflexivity].
  apply Qeq_bool_iff in E. contradiction.
Qed.

Lemma py_div_zero (x y : Q) : y == 0 -> py_div x y = inl ZeroDivisionError.
Proof.
  intros Hy. unfold py_div. apply Qeq_bool_iff in Hy. now rewrite Hy.
Qed.

Lemma length_nonzero (l : list Q) :
  l <> [] -> ~ inject_Z (Z.of_nat (length l)) == 0.
Proof.
  intros Hl Hz. destruct l as [|x l]; [now apply Hl|].
  unfold Qeq in Hz. cbn in Hz. lia.
Qed.

(** One call when the clock moved: the new rate enters the window, the
    oldest one leaves a full window, the mean is stored. *)
Lemma calculate_fps_ok (t : Q) (self : FpsMeter) :
  ~ t == prev_time self ->
  (length (fps_buffer self) <= 30)%nat ->
  _calculate_fps t self
  = (let window := lastn 30 (fps_buffer self ++ [1 / (t - prev_time self)]) in
     mkFpsMeter t window (mean window), inr tt).
Proof.
  intros Ht Hlen. unfold _calculate_fps.
  rewrite py_div_ok by (intros Hz; apply Ht; lra).
  cbn [prev_time fps_buffer fps].
  set (b := fps_buffer self ++ [1 / (t - prev_time self)]).
  assert (Hb : length b = S (length (fps_buffer self)))
    by (unfold b; rewrite length_app; cbn; lia).
  assert (Hw : (if (30 <? length b)%nat
                then mkFpsMeter t (tl b) (fps self)
                else mkFpsMeter t b (fps self))
               = mkFpsMeter t (lastn 30 b) (fps self)).
  { unfold lastn. destruct (30 <? length b)%nat eqn:E.
    - apply Nat.ltb_lt in E.
      replace (length b - 30)%nat with 1%nat by lia.
      destruct b; reflexivity.
    - apply Nat.ltb_ge in E.
      replace (length b - 30)%nat with 0%nat by lia. reflexivity. }
  rewrite Hw. cbn [prev_time fps_buffer fps].
  rewrite py_div_ok; [reflexivity|].
  apply length_nonzero. unfold lastn. intros Hnil.
  apply (f_equal (@length Q)) in Hnil. rewrite length_skipn in Hnil.
  cbn in Hnil. lia.
Qed.

Lemma lastn_length {A : Type} (n : nat) (l : list A) :
  length (lastn n l) = Nat.min n (length l).
Proof. unfold lastn. rewrite length_skipn. lia. Qed.

Lemma lastn_app_lastn {A : Type} (n : nat) (l l' : list A) :
  lastn n (lastn n l ++ l') = lastn n (l ++ l').
Proof.
  unfold lastn. rewrite !length_app, length_skipn.
  rewrite !skipn_app, skipn_skipn, length_skipn.
  f_equal; f_equal; lia.
Qed.

Lemma last_default_irrelevant {A : Type} (l : list A) (d d' : A) :
  l <> [] -> last l d = last l d'.
Proof.
  induction l as [|x l IH]; intros Hne; [now contradiction Hne|].
  destruct l as [|y l]; [reflexivity|].
  cbn [last] in *. apply IH. discriminate.
Qed.

Lemma meter_after_moving (times : list Q) (self : FpsMeter) :
  clock_moves (prev_time self) times ->
  (length (fps_buffer self) <= 30)%nat ->
  times <> [] ->
  let window :=
    lastn 30 (fps_buffer self ++ frame_rates (prev_time self) times) in
  meter_after times self
  = mkFpsMeter (last times (prev_time self)) window (mean window).
Proof.
  revert self. induction times as [|t times IH]; intros self Hmov Hlen Hne.
  - now contradiction Hne.
  - destruct Hmov as [Ht Hmov]. unfold meter_after. cbn [fold_left].
    rewrite (calculate_fps_ok t self Ht Hlen). cbn [fst].
    destruct times as [|t' times].
    + cbn [fold_left frame_rates last]. reflexivity.
    + fold (meter_after (t' :: times)
              (mkFpsMeter t
                 (lastn 30 (fps_buffer self ++ [1 / (t - prev_time self)]))
                 (mean (lastn 30 (fps_buffer self
                                  ++ [1 / (t - prev_time self)]))))).
      rewrite IH.
      * cbn [prev_time fps_buffer]. cbn zeta.
        rewrite lastn_app_lastn, <- app_assoc.
        rewrite (last_default_irrelevant (t' :: times) t (prev_time self))
          by discriminate.
        reflexivity.
      * exact Hmov.
      * cbn [fps_buffer]. rewrite lastn_length. lia.
      * discriminate.
Qed.

(** X8. The displayed frame rate is a sliding mean: after any clock readings
    that each differ from the one before, the buffer holds the last 30
    instantaneous rates [1 / (t - previous t)] (all of them while there are
    fewer), [fps] is their mean, and [prev_time] is the last reading. *)
Theorem fps_is_mean_of_last_30_rates :
  forall (t0 : Q) (times : list Q),
    clock_moves t0 times -> times <> [] ->
    let window := lastn 30 (frame_rates t0 times) in
    meter_after times (fresh_meter t0)
    = mkFpsMeter (last times t0) window (mean window).
Proof.
  intros t0 times Hmov Hne.
  apply (meter_after_moving times (fresh_meter t0)); cbn; auto with arith.
Qed.

Lemma fps_is_mean_of_last_30_rates_witness :
  (clock_moves 0 [1 # 30; 2 # 30] /\ [1 # 30; 2 # 30] <> [])
  /\ meter_after [1 # 30; 2 # 30] (fresh_meter 0)
     = mkFpsMeter (last [1 # 30; 2 # 30] 0)
         (lastn 30 (frame_rates 0 [1 # 30; 2 # 30]))
         (mean (lastn 30 (frame_rates 0 [1 # 30; 2 # 30]))).
Proof.
  assert (Hmov : clock_moves 0 [1 # 30; 2 # 30]).
  { cbn. repeat split; intros H; discriminate H. }
  assert (Hne : [1 # 30; 2 # 30] <> []) by discriminate.
  split.
  - split; assumption.
  - exact (fps_is_mean_of_last_30_rates 0 [1 # 30; 2 # 30] Hmov Hne).
Defined.

(** One call, whatever the clock did: the buffer stays within 30 entries,
    and the call raises exactly when the clock did not move, leaving the
    meter as it was. *)
Lemma calculate_fps_step (t : Q) (self : FpsMeter) :
  (length (fps_buffer self) <= 30)%nat ->
  let step := _calculate_fps t self in
  (length (fps_buffer (fst step)) <= 30)%nat
  /\ (t == prev_time self -> step = (self, inl ZeroDivisionError))
  /\ (~ t == prev_time self ->
      snd step = inr tt /\ (1 <= length (fps_buffer (fst step)))%nat).
Proof.
  intros Hlen step. subst step.
  destruct (Qeq_dec t (prev_time self)) as [Heq|Hne].
  - assert (Hs : _calculate_fps t self = (self, inl ZeroDivisionError)).
    { unfold _calculate_fps. rewrite py_div_zero by lra. reflexivity. }
    rewrite Hs. cbn [fst]. repeat split; [exact Hlen | contradiction..].
  - rewrite (calculate_fps_ok t self Hne Hlen). cbn [fst snd fps_buffer].
    rewrite lastn_length, length_app. cbn [length].
    repeat split; try lia. intros Heq. contradiction.
Qed.

(** X9. After any sequence of clock readings on a fresh meter the buffer
    holds at most 30 rates, and the next call raises [ZeroDivisionError]
    exactly when its reading equals the previous one, leaving [prev_time],
    the buffer and [fps] untouched; otherwise it returns, with 1 to 30 rates
    in the buffer, so the mean of line 105 never divides by zero. *)
Theorem fps_buffer_bounded_and_errors :
  forall (t0 : Q) (times : list Q) (t : Q),
    let before := meter_after times (fresh_meter t0) in
    let step := _calculate_fps t before in
    (length (fps_buffer before) <= 30)%nat
    /\ (t == prev_time before -> step = (before, inl ZeroDivisionError))
    /\ (~ t == prev_time before ->
        snd step = inr tt
        /\ (1 <= length (fps_buffer (fst step)) <= 30)%nat).
Proof.
  intros t0 times t.
  assert (Hinv : forall ts self,
             (length (fps_buffer self) <= 30)%nat ->
             (length (fps_buffer (meter_after ts self)) <= 30)%nat).
  { induction ts as [|t' ts IH]; intros self Hlen; [exact Hlen|].
    unfold meter_after. cbn [fold_left]. apply IH.
    now destruct (calculate_fps_step t' self Hlen) as (Hstep & _ & _). }
  assert (Hbefore : (length (fps_buffer (meter_after times (fresh_meter t0)))
                     <= 30)%nat)
    by (apply Hinv; cbn; auto with arith).
  intros before step.
  destruct (calculate_fps_step t before Hbefore) as (Hlen & Hz & Hnz).
  split; [exact Hbefore|]. split; [exact Hz|].
  intros Hne. destruct (Hnz Hne) as [Hret Hone].
  split; [exact Hret|]. split; [exact Hone | exact Hlen].
Qed.


(** ** The detector *)

Lemma zip3_map {A B C D : Type} (f : A -> B) (g : A -> C) (h : A -> D)
  (l : list A) :
  zip3 (map f l) (map g l) (map h l) = map (fun x => (f x, g x, h x)) l.
Proof. induction l as [|x l IH]; [reflexivity | cbn; now rewrite IH]. Qed.

Lemma extract_known (m : YOLO) (rows : list BoxRow) (acc : list Detection) :
  Forall (class_known m) rows ->
  exists ds,
    extract m (map (fun r => (xyxy r, row_conf r, row_cls r)) rows) acc
    = Some (acc ++ ds)
    /\ Forall2 (built_from m) rows ds.
Proof.
  revert acc. induction rows as [|r rows IH]; intros acc Hk.
  - exists []. split; [cbn; now rewrite app_nil_r | constructor].
  - inversion Hk as [|r' rows' Hr Hrows]; subst. cbn [map extract].
    unfold class_known in Hr.
    destruct (dict_get (names m) (Qtrunc (row_cls r))) as [label|] eqn:E;
      [|contradiction].
    destruct (IH (acc ++ [mkDetection (astype_int (xyxy r)) (row_conf r)
                            (Qtrunc (row_cls r)) label]) Hrows)
      as (ds & Hds & Hall).
    eexists (_ :: ds). split.
    + rewrite Hds, <- app_assoc. reflexivity.
    + constructor; [|exact Hall]. unfold built_from. cbn. auto.
Qed.

Lemma extract_unknown (m : YOLO) (rows : list BoxRow) (acc : list Detection) :
  Exists (fun r => ~ class_known m r) rows ->
  extract m (map (fun r => (xyxy r, row_conf r, row_cls r)) rows) acc = None.
Proof.
  revert acc. induction rows as [|r rows IH]; intros acc Hex.
  - inversion Hex.
  - cbn [map extract].
    destruct (dict_get (names m) (Qtrunc (row_cls r))) as [label|] eqn:E;
      [|reflexivity].
    inversion Hex as [r' rows' Hr|r' rows' Hrows]; subst.
    + exfalso. apply Hr. unfold class_known. rewrite E. discriminate.
    + now apply IH.
Qed.

Lemma detections_of_rows (m : YOLO) (rows : list BoxRow)
  (more : list Result) :
  detections_of m (mkResult (Some rows) :: more)
  = extract m (map (fun r => (xyxy r, row_conf r, row_cls r)) rows) [].
Proof.
  unfold detections_of. cbn [boxes]. rewrite zip3_map.
  destruct rows; reflexivity.
Qed.

(** X10. [detect] is all or nothing per frame.  When every class of the
    first result has a name, it returns one detection per row, in order,
    with the corners and the class truncated to integers, the confidence
    kept and the label looked up.  When one class has no name, the
    [KeyError] makes it return the empty list: the detections already built
    for the rows before are lost. *)
Theorem detect_is_all_or_nothing :
  forall (path : String.string) (threshold : Q) (m : YOLO)
         (rows : list BoxRow) (more : list Result),
    let self := mkHandDetector path threshold (Some m) in
    let outcome := InferenceResults (mkResult (Some rows) :: more) in
    (Forall (class_known m) rows ->
     Forall2 (built_from m) rows (detect self outcome))
    /\ (Exists (fun r => ~ class_known m r) rows ->
        detect self outcome = []).
Proof.
  intros path threshold m rows more self outcome. subst self outcome.
  unfold detect. cbn [model]. rewrite detections_of_rows. split.
  - intros Hk. destruct (extract_known m rows [] Hk) as (ds & -> & Hall).
    exact Hall.
  - intros Hex. now rewrite extract_unknown.
Qed.

(** X11. [detect_and_annotate] returns the detections of [detect] whenever
    the plot succeeded, and none when it raised; and [detect] itself returns
    none without a model, when the network raises, on no results and on a
    first result without boxes. *)
Theorem detect_and_annotate_agrees_with_detect :
  forall (Frame : Type) (self : HandDetector) (frame annotated : Frame)
         (outcome : Inference),
    snd (detect_and_annotate self frame outcome (Some annotated))
    = detect self outcome
    /\ snd (detect_and_annotate self frame outcome None) = []
    /\ (model self = None -> detect self outcome = [])
    /\ detect self InferenceRaised = []
    /\ detect self (InferenceResults []) = []
    /\ forall more, detect self (InferenceResults (mkResult None :: more)) = [].
Proof.
  intros Frame self frame annotated outcome.
  unfold detect_and_annotate, detect.
  destruct (model self) as [m|]; [|repeat split; reflexivity].
  repeat split; try reflexivity; try discriminate.
  - destruct outcome as [|[|r results]]; try reflexivity.
    destruct (detections_of m (r :: results)); reflexivity.
  - destruct outcome as [|[|r results]]; reflexivity.
Qed.

Lemma cast_int64_fits (q : Q) :
  (int64_min <= Qtrunc q <= int64_max)%Z -> cast_int64 q = Qtrunc q.
Proof.
  intros [Hlo Hhi]. unfold cast_int64.
  apply Z.leb_le in Hlo. apply Z.leb_le in Hhi. now rewrite Hlo, Hhi.
Qed.

Lemma astype_int_well_formed (box : BBox Q) :
  well_formed box -> fits_int64 box ->
  well_formed (pixel_bbox (astype_int box)).
Proof.
  destruct box as [[[x1 y1] x2] y2]. cbn [well_formed fits_int64].
  intros [Hx Hy] (F1 & F2 & F3 & F4). cbn [astype_int pixel_bbox well_formed].
  rewrite !cast_int64_fits by assumption.
  split; rewrite <- Zle_Qle; now apply Qtrunc_le.
Qed.

Lemma detect_well_formed_calls (self : HandDetector) (rows : list BoxRow)
  (more : list Result) :
  Forall row_ok rows ->
  Forall well_formed_call
         (map call_of
            (detect self (InferenceResults (mkResult (Some rows) :: more)))).
Proof.
  intros Hwf. unfold detect.
  destruct (model self) as [m|]; [|constructor].
  rewrite detections_of_rows.
  assert (Hgen : forall rs acc ds,
             Forall row_ok rs ->
             Forall well_formed_call (map call_of acc) ->
             extract m (map (fun r => (xyxy r, row_conf r, row_cls r)) rs) acc
             = Some ds ->
             Forall well_formed_call (map call_of ds)).
  { induction rs as [|r rs IH]; intros acc ds Hrs Hacc Hex.
    - cbn in Hex. now injection Hex as <-.
    - inversion Hrs as [|r' rs' Hr Hrs']; subst. cbn [map extract] in Hex.
      destruct (dict_get (names m) (Qtrunc (row_cls r))) as [label|];
        [|discriminate].
      apply (IH _ _ Hrs') in Hex; [exact Hex|].
      rewrite map_app. apply Forall_app. split; [exact Hacc|].
      constructor; [|constructor]. cbn [call_of well_formed_call det_bbox].
      destruct Hr as [Hw Hf]. now apply astype_int_well_formed. }
  destruct (extract m _ []) as [ds|] eqn:E; [|constructor].
  apply (Hgen rows [] ds Hwf); [constructor | exact E].
Qed.

(** X12. The detector keeps bboxes well-formed inside the int64 range: when
    the rows of the network all have [x1 <= x2] and [y1 <= y2] and corners
    that [astype(int)] can represent, the integer bboxes of all the
    detections returned are well-formed too; they are the bboxes
    [process_frame] hands to [smooth]. *)
Theorem detect_keeps_bboxes_well_formed :
  forall (self : HandDetector) (rows : list BoxRow) (more : list Result),
    Forall row_ok rows ->
    Forall well_formed_call
           (map call_of
              (detect self (InferenceResults (mkResult (Some rows) :: more)))).
Proof.
  intros self rows more Hwf. now apply detect_well_formed_calls.
Qed.

Lemma detect_keeps_bboxes_well_formed_witness :
  Forall row_ok [mkBoxRow (100.7, 100.2, 200.9, 200.5) 0.9 0]
  /\ Forall well_formed_call
       (map call_of
          (detect sample_detector
                  (InferenceResults
                     [mkResult
                        (Some [mkBoxRow (100.7, 100.2, 200.9, 200.5) 0.9 0])]))).
Proof.
  assert (Hwf : Forall row_ok [mkBoxRow (100.7, 100.2, 200.9, 200.5) 0.9 0]).
  { repeat constructor; cbn; try lra; try discriminate. }
  split.
  - exact Hwf.
  - exact (detect_keeps_bboxes_well_formed _ _ [] Hwf).
Defined.

(** Outside the int64 range the cast wraps: the well-formed row
    (1, 2, 10^19, 4) is returned with the right edge [-2^63], left of the
    left edge. *)
Example detect_wraps_beyond_int64 :
  map det_bbox
      (detect sample_detector
         (InferenceResults
            [mkResult
               (Some [mkBoxRow (1, 2, inject_Z (10 ^ 19), 4) 0.9 0])]))
  = [(1, 2, - 2 ^ 63, 4)%Z].
Proof. vm_compute. reflexivity. Qed.


(** ** The frame loop *)

Section FrameLoop.
Context {N : Number Q}.

Lemma process_detections_disabled (show_raw : bool)
  (detections : list Detection) (sm : FuzzyBBoxSmoother Q) :
  process_detections false show_raw detections sm
  = (match detections with [] => sm | _ :: _ => init end,
     inr (if show_raw
          then map (fun d => DrawRaw (det_bbox d)) detections
          else [])).
Proof.
  revert sm. induction detections as [|d rest IH]; intros sm.
  - destruct show_raw; reflexivity.
  - cbn [process_detections]. unfold bind at 1. rewrite reset_state.
    unfold bind at 1. rewrite IH.
    destruct rest, show_raw; reflexivity.
Qed.

End FrameLoop.

Lemma disabled_frame_resets_smoother_aux (N : Number Q)
  (sm : FuzzyBBoxSmoother Q) (show_raw help : bool)
  (d : Detection) (rest : list Detection) :
  process_frame (d :: rest) (mkLive sm false show_raw help)
  = (mkLive init false show_raw help,
     inr (if show_raw
          then map (fun d => DrawRaw (det_bbox d)) (d :: rest)
          else []))
  /\ forall self : LiveHandDetection, process_frame [] self = (self, inr []).
Proof.
  split.
  - unfold process_frame.
    cbn [smoothing_enabled show_raw_boxes smoother show_help].
    rewrite process_detections_disabled. reflexivity.
  - intros [sm' en raw' help']. reflexivity.
Qed.

(** X13. A frame processed with smoothing disabled resets the smoother once
    per detection and draws the raw boxes only, so a frame with a detection
    leaves the smoother uninitialized; a frame without detections touches
    nothing, whatever the flags: the smoother then keeps its old state. *)
Theorem disabled_frame_resets_smoother :
  forall (N : Number Q) (sm : FuzzyBBoxSmoother Q) (show_raw help : bool)
         (d : Detection) (rest : list Detection),
    process_frame (d :: rest) (mkLive sm false show_raw help)
    = (mkLive init false show_raw help,
       inr (if show_raw
            then map (fun d => DrawRaw (det_bbox d)) (d :: rest)
            else []))
    /\ forall self : LiveHandDetection, process_frame [] self = (self, inr []).
Proof.
  intros N sm show_raw help d rest.
  apply disabled_frame_resets_smoother_aux.
Qed.

Lemma toggle_smoothing_key (self : LiveHandDetection) :
  handle_keyboard_input (ord CONTROLS.toggle_smoothing) self
  = (mkLive (smoother self) (negb (smoothing_enabled self))
            (show_raw_boxes self) (show_help self), Continue).
Proof. reflexivity. Qed.

(** X14. Switching the smoothing off and on again restarts it cold: after a
    frame with a detection processed while disabled and the key ['s'], the
    next detection is drawn as smoothed box exactly as detected, whatever
    the smoother had stored before. *)
Theorem reenabled_smoothing_starts_cold :
  forall (N : Number Q) (sm : FuzzyBBoxSmoother Q) (show_raw help : bool)
         (d : Detection) (rest : list Detection) (d' : Detection),
    let after_frame :=
      fst (process_frame (d :: rest) (mkLive sm false show_raw help)) in
    let after_key :=
      fst (handle_keyboard_input (ord CONTROLS.toggle_smoothing) after_frame)
    in
    smoothing_enabled after_key = true
    /\ snd (process_frame [d'] after_key)
       = inr ((if show_raw then [DrawRaw (det_bbox d')] else [])
              ++ [DrawSmooth (Same (pixel_bbox (det_bbox d')))]).
Proof.
  intros N sm show_raw help d rest d' after_frame after_key.
  subst after_key after_frame.
  rewrite (proj1 (disabled_frame_resets_smoother_aux N sm show_raw help d rest)).
  cbn [fst]. rewrite toggle_smoothing_key. cbn [fst negb smoother
    smoothing_enabled show_raw_boxes show_help].
  split; [reflexivity|].
  unfold process_frame.
  cbn [smoothing_enabled show_raw_boxes smoother show_help snd
       process_detections].
  unfold bind. rewrite smooth_cold by reflexivity.
  destruct (det_bbox d') as [[[x1 y1] x2] y2]. reflexivity.
Qed.


Section ExactFrames.
Variable sqrt : Q -> Q.
Local Abbreviation exactN := (QNumber sqrt).
#[local] Hint Extern 0 (Number Q) => exact exactN : typeclass_instances.

Lemma smooth_returns (bbox : BBox Q) (conf : Q) (self : FuzzyBBoxSmoother Q) :
  uninitialized self \/ tracking self ->
  exists r, smooth bbox conf self = (fst (smooth bbox conf self), inr r).
Proof.
  intros [Hu | (pcx & pcy & pw & ph & Ht)].
  - unfold uninitialized in Hu. subst self.
    rewrite smooth_cold by reflexivity. eexists. reflexivity.
  - subst self. destruct bbox as [[[x1 y1] x2] y2].
    destruct (smooth_tracking_exact sqrt pcx pcy pw ph x1 y1 x2 y2 conf)
      as (ncx & ncy & Heq).
    cbn zeta in Heq. rewrite Heq. eexists. reflexivity.
Qed.

Lemma smooth_keeps_shape (bbox : BBox Q) (conf : Q)
  (self : FuzzyBBoxSmoother Q) :
  uninitialized self \/ tracking self ->
  uninitialized (fst (smooth bbox conf self))
  \/ tracking (fst (smooth bbox conf self)).
Proof.
  intros Hs. rewrite <- perform_smooth_state. now apply perform_keeps_shape.
Qed.

Lemma state_after_shape (calls : list (Call Q)) (self : FuzzyBBoxSmoother Q) :
  uninitialized self \/ tracking self ->
  uninitialized (state_after calls self) \/ tracking (state_after calls self).
Proof.
  revert self. induction calls as [|c calls IH]; intros self Hs; [exact Hs|].
  unfold state_after. cbn [fold_left]. apply IH.
  now apply perform_keeps_shape.
Qed.

Lemma process_detections_enabled (show_raw : bool)
  (detections : list Detection) (sm : FuzzyBBoxSmoother Q) :
  uninitialized sm \/ tracking sm ->
  exists drawn,
    process_detections true show_raw detections sm
    = (state_after (map call_of detections) sm, inr drawn)
    /\ map (fun r => inr (Some r)) (smoothed_boxes drawn)
       = map snd (trace (map call_of detections) sm)
    /\ (show_raw = false -> length drawn = length detections).
Proof.
  revert sm. induction detections as [|d rest IH]; intros sm Hs.
  - exists []. repeat split; reflexivity.
  - destruct (smooth_returns (pixel_bbox (det_bbox d)) (det_conf d) sm Hs)
      as (r & Hr).
    destruct (IH (fst (smooth (pixel_bbox (det_bbox d)) (det_conf d) sm))
                 (smooth_keeps_shape _ _ sm Hs)) as (drawn & Hd & Hsm & Hlen).
    exists ((if show_raw then [DrawRaw (det_bbox d)] else [])
            ++ DrawSmooth r :: drawn).
    assert (Hstep : perform (call_of d) sm
                    = (fst (smooth (pixel_bbox (det_bbox d)) (det_conf d) sm),
                       inr (Some r))).
    { unfold call_of. cbn [perform]. unfold bind. rewrite Hr. reflexivity. }
    repeat split.
    + cbn [process_detections]. unfold bind at 1. rewrite Hr.
      unfold bind at 1. rewrite Hd.
      cbn [map]. unfold state_after. cbn [fold_left]. rewrite Hstep.
      reflexivity.
    + cbn [map trace]. rewrite Hstep. cbn [fst snd].
      rewrite <- Hsm. destruct show_raw; reflexivity.
    + intros ->. cbn. now rewrite Hlen.
Qed.

(** X15. A frame processed with smoothing enabled is one run of [smooth]
    calls on the single smoother of the application, one per detection in
    the order of the detector: the smoothed boxes drawn are what those calls
    return and the smoother ends in the state they leave, so a second
    detection of a frame is blended into the state left by the first.  In
    exact arithmetic no call raises. *)
Theorem enabled_frame_is_a_call_sequence :
  forall (calls : list (Call Q)) (detections : list Detection)
         (show_raw help : bool),
    let sm := state_after calls init in
    exists drawn,
      process_frame detections (mkLive sm true show_raw help)
      = (mkLive (state_after (map call_of detections) sm) true show_raw help,
         inr drawn)
      /\ map (fun r => inr (Some r)) (smoothed_boxes drawn)
         = map snd (trace (map call_of detections) sm).
Proof.
  intros calls detections show_raw help sm.
  assert (Hs : uninitialized sm \/ tracking sm)
    by (apply state_after_shape; left; reflexivity).
  destruct (process_detections_enabled show_raw detections sm Hs)
    as (drawn & Hd & Hsm & _).
  exists drawn. split; [|exact Hsm].
  unfold process_frame.
  cbn [smoothing_enabled show_raw_boxes smoother show_help].
  rewrite Hd. reflexivity.
Qed.

End ExactFrames.

(** ** The keyboard *)

Lemma key_is_mod_256 (waited : Z) : Z.land waited 255 = (waited mod 256)%Z.
Proof. change 255%Z with (Z.ones 8). now rewrite Z.land_ones by lia. Qed.

(** X16. Only the low byte of what [cv2.waitKey] returns is looked at: two
    return values that differ by a multiple of 256 are handled alike; and
    the value -1 of "no key" changes nothing and does not leave the loop. *)
Theorem keyboard_reads_the_low_byte :
  forall (waited k : Z) (self : LiveHandDetection),
    handle_keyboard_input (waited + 256 * k) self
    = handle_keyboard_input waited self
    /\ handle_keyboard_input (-1) self = (self, Continue).
Proof.
  intros waited k self. split.
  - unfold handle_keyboard_input. rewrite !key_is_mod_256.
    replace ((waited + 256 * k) mod 256)%Z with (waited mod 256)%Z;
      [reflexivity|].
    rewrite Z.mul_comm. now rewrite Z.mod_add by lia.
  - unfold handle_keyboard_input.
    change (Z.land (-1) 255) with 255%Z. cbn.
    now rewrite andb_false_r.
Qed.



(** ** From the network to the screen *)

Section ExactPipeline.
Variable sqrt : Q -> Q.
Local Abbreviation exactN := (QNumber sqrt).
#[local] Hint Extern 0 (Number Q) => exact exactN : typeclass_instances.

Lemma state_after_well_formed (calls : list (Call Q))
  (self : FuzzyBBoxSmoother Q) :
  uninitialized self \/ tracking self -> size_nonneg self ->
  Forall well_formed_call calls ->
  size_nonneg (state_after calls self).
Proof.
  revert self. induction calls as [|c calls IH]; intros self Hs Hn Hwf;
    [exact Hn|].
  inversion Hwf as [|c' calls' Hc Hcalls]; subst.
  unfold state_after. cbn [fold_left]. apply IH.
  - now apply perform_keeps_shape.
  - exact (proj1 (perform_well_formed sqrt c self Hs Hn Hc)).
  - exact Hcalls.
Qed.

(** X18. From the network to the screen, in exact arithmetic: when the
    bboxes smoothed so far were well-formed and the rows of the network for
    this frame are well-formed with corners in the int64 range, then
    [process_frame] on the detections of [detect] raises nothing and every
    smoothed box it draws has [x1 <= x2] and [y1 <= y2]. *)
Theorem pipeline_draws_well_formed_boxes :
  forall (calls : list (Call Q)) (detector : HandDetector)
         (rows : list BoxRow) (more : list Result) (show_raw help : bool),
    Forall well_formed_call calls ->
    Forall row_ok rows ->
    let detections :=
      detect detector (InferenceResults (mkResult (Some rows) :: more)) in
    exists drawn,
      snd (process_frame detections
             (mkLive (state_after calls init) true show_raw help))
      = inr drawn
      /\ Forall returned_box_well_formed (smoothed_boxes drawn).
Proof.
  intros calls detector rows more show_raw help Hcalls Hrows detections.
  set (sm := state_after calls init).
  assert (Hinit : uninitialized (@init Q) \/ tracking (@init Q))
    by (left; reflexivity).
  assert (Hsize0 : size_nonneg (@init Q))
    by (split; intros v Hv; discriminate Hv).
  assert (Hs : uninitialized sm \/ tracking sm)
    by (apply state_after_shape; exact Hinit).
  assert (Hn : size_nonneg sm)
    by (apply state_after_well_formed; assumption).
  assert (Hd : Forall well_formed_call (map call_of detections))
    by (apply detect_well_formed_calls; exact Hrows).
  destruct (process_detections_enabled sqrt show_raw detections sm Hs)
    as (drawn & Hp & Hsm & _).
  exists drawn. split.
  - unfold process_frame.
    cbn [smoothing_enabled show_raw_boxes smoother show_help].
    rewrite Hp. reflexivity.
  - pose proof (trace_well_formed sqrt (map call_of detections) sm Hs Hn Hd)
      as Htr.
    assert (Hall : Forall returned_well_formed
                          (map snd (trace (map call_of detections) sm))).
    { rewrite Forall_map. eapply Forall_impl; [|exact Htr].
      intros step Hstep. apply Hstep. }
    rewrite <- Hsm in Hall. rewrite Forall_map in Hall. exact Hall.
Qed.

End ExactPipeline.

Lemma pipeline_draws_well_formed_boxes_witness :
  (Forall well_formed_call scenario
   /\ Forall row_ok [mkBoxRow (100.7, 100.2, 200.9, 200.5) 0.9 0])
  /\ exists drawn,
       snd (@process_frame Q53
              (detect sample_detector
                 (InferenceResults
                    [mkResult
                       (Some [mkBoxRow (100.7, 100.2, 200.9, 200.5) 0.9 0])]))
              (mkLive (@state_after Q Q53 QTrunc scenario init)
                      true true false))
       = inr drawn
       /\ Forall returned_box_well_formed (smoothed_boxes drawn).
Proof.
  assert (Hcalls : Forall well_formed_call scenario).
  { repeat constructor; cbn; lra. }
  assert (Hrows : Forall row_ok
                         [mkBoxRow (100.7, 100.2, 200.9, 200.5) 0.9 0]).
  { repeat constructor; cbn; try lra; try discriminate. }
  split.
  - split; assumption.
  - exact (pipeline_draws_well_formed_boxes Qsqrt scenario sample_detector
             _ [] true false Hcalls Hrows).
Defined.

(** ** The capture loop of the calibration script *)

Section CaptureLoop.
Variables ObjectPoints Corners : Type.
Variable objp : ObjectPoints.

Lemma capture_step_invariant (p : FramePair Corners)
  (s : CaptureState ObjectPoints Corners) :
  capture_invariant objp s -> (count s < NUM_IMAGES)%nat ->
  capture_invariant objp (fst (capture_step objp p s)).
Proof.
  intros (Ho & Hl & Hr & Hc & Hall) Hlt. unfold capture_step.
  destruct (negb (ret_l p) || negb (ret_r p));
    [repeat split; assumption|].
  destruct ((Z.land (waited_key p) 255 =? ord CaptureKeys.capture)%Z
            && ret_l_cb p && ret_r_cb p).
  - cbn [fst]. unfold capture_invariant.
    cbn [objpoints imgpoints_l imgpoints_r count].
    rewrite !length_app. cbn [length]. repeat split; try lia.
    apply Forall_app. split; [exact Hall | repeat constructor].
  - destruct (Z.land (waited_key p) 255 =? ord CaptureKeys.quit)%Z;
      repeat split; assumption.
Qed.

Lemma capture_loop_invariant (passes : list (FramePair Corners))
  (s : CaptureState ObjectPoints Corners) :
  capture_invariant objp s -> capture_invariant objp (capture_loop objp passes s).
Proof.
  revert s. induction passes as [|p passes IH]; intros s Hs; [exact Hs|].
  cbn [capture_loop].
  destruct (count s <? NUM_IMAGES)%nat eqn:E; [|exact Hs].
  apply Nat.ltb_lt in E.
  pose proof (capture_step_invariant p s Hs E) as Hstep.
  destruct (capture_step objp p s) as [s' [|]]; cbn [fst] in Hstep.
  - now apply IH.
  - exact Hstep.
Qed.

End CaptureLoop.

(** X19. The capture loop of the calibration keeps its three lists aligned:
    after any passes, [objpoints], [imgpoints_l] and [imgpoints_r] have the
    same length, which is [count] and at most [NUM_IMAGES], and every object
    point set is [objp].  A pass in which a camera read failed changes
    nothing and is left before the keyboard is read, so ['q'] cannot end the
    loop then. *)
Theorem capture_lists_stay_aligned :
  forall (ObjectPoints Corners : Type) (objp : ObjectPoints)
         (passes : list (FramePair Corners)),
    let s := capture_loop objp passes (@capture_start ObjectPoints Corners) in
    (length (objpoints s) = count s
     /\ length (imgpoints_l s) = count s
     /\ length (imgpoints_r s) = count s
     /\ (count s <= NUM_IMAGES)%nat
     /\ Forall (eq objp) (objpoints s))
    /\ forall (p : FramePair Corners) (s' : CaptureState ObjectPoints Corners),
         ret_l p = false \/ ret_r p = false ->
         capture_step objp p s' = (s', Continue).
Proof.
  intros ObjectPoints Corners objp passes s. split.
  - apply (capture_loop_invariant ObjectPoints Corners objp passes).
    unfold capture_invariant, capture_start, NUM_IMAGES. cbn.
    repeat split; auto with arith.
  - intros p s' Hret. unfold capture_step.
    destruct Hret as [-> | ->]; [reflexivity|].
    now rewrite orb_true_r.
Qed.


(** * The claims that hold with a proviso only *)



(** C9, as the specification words it, fails on floats.  The bbox
    (-2^1023, 0, 2^1023, 0) is well-formed; the first call stores the width
    infinity, the second stores NaN, which is not [>= 0], and raises instead
    of returning a bbox. *)
Lemma well_formed_bbox_overflows_on_floats :
  let x := 0x1p+1023%float in
  let bbox := ((- x)%float, 0%float, x, 0%float) in
  (PrimFloat.leb (- x) x = true /\ PrimFloat.leb 0 0 = true)
  /\ map (fun step => (prev_w (fst step), snd step))
         (trace [CallSmooth bbox 0.5%float; CallSmooth bbox 0.5%float] init)
     = [(Some PrimFloat.infinity, inr (Some (Same bbox)));
        (Some PrimFloat.nan, inl ValueError)]
  /\ PrimFloat.leb 0 PrimFloat.nan = false.
Proof. vm_compute. repeat split. Qed.

(** On binary64 the halving of X5 is rounded: from the stored size (10, 10),
    the bbox (0, 0, 20, 10) repeated 60 times leaves the stored width at
    exactly 20, the raw width. *)
Example size_reaches_raw_size_on_binary64 :
  let f := fun z : Z => @lit float FloatNumber (inject_Z z) in
  prev_w (state_after
            (repeat (CallSmooth (f 0, f 0, f 20, f 10)%Z
                                (@lit float FloatNumber 0.9)) 60)
            (mkSmoother (Some (f 5%Z)) (Some (f 5%Z))
                        (Some (f 10%Z)) (Some (f 10%Z))))
  = Some (f 20%Z).
Proof. vm_compute. reflexivity. Qed.
